(** * spades_runner.py: a shallow embedding and its verified properties

    The script drives the assembler SPAdes over a list of gene
    directories through GNU parallel, and retries the genes that gave no
    contigs with the largest k-mer removed.  The embedding keeps the
    script's three functions ([make_spades_cmd], [spades_initial],
    [rerun_spades]) and [main], written over an explicit world: the
    working directory as a finite map from path to node, the text written
    to standard error, and a trace of the shell commands and of the file
    copies.  The external run ([subprocess.call]) is a parameter of the
    development: it maps the command and the directory it sees to an exit
    code and the directory it leaves. *)

From Stdlib Require Import ZArith String Ascii List Lia DecimalString.
From Stdlib Require Import Sorted Permutation.
From stdpp Require Import gmap strings list sorting.

Open Scope string_scope.
Open Scope Z_scope.

(** ** Python strings *)

(** [str(n)] and ["{}".format(n)] for an [int]. *)
Definition str_Z (z : Z) : string := NilZero.string_of_int (Z.to_int z).

(** [sep.join(l)]. *)
Definition join (sep : string) (l : list string) : string := String.concat sep l.

(** [s.startswith(p)]. *)
Definition startswith (p s : string) : bool := String.prefix p s.

(** [frag in s]. *)
Fixpoint contains (frag s : string) : bool :=
  String.prefix frag s ||
  match s with
  | EmptyString => false
  | String _ s' => contains frag s'
  end.

(** [c in s] for one character. *)
Fixpoint has_char (c : ascii) (s : string) : bool :=
  match s with
  | EmptyString => false
  | String x r => Ascii.eqb c x || has_char c r
  end.

(** [x[1:]]. *)
Definition tail1 (x : string) : string :=
  match x with
  | EmptyString => EmptyString
  | String _ r => r
  end.

(** The characters [str.isspace] accepts among the first 128: tab to
    carriage return, the four separators 28..31, and the blank. *)
Definition is_py_space (c : ascii) : bool :=
  let n := nat_of_ascii c in
  ((9 <=? n) && (n <=? 13) || (28 <=? n) && (n <=? 32))%nat.

(** [s.rstrip()]. *)
Fixpoint rstrip (s : string) : string :=
  match s with
  | EmptyString => EmptyString
  | String c r =>
      match rstrip r with
      | EmptyString => if is_py_space c then EmptyString else String c EmptyString
      | r' => String c r'
      end
  end.

(** [s.lstrip()]. *)
Fixpoint lstrip (s : string) : string :=
  match s with
  | EmptyString => EmptyString
  | String c r => if is_py_space c then lstrip r else s
  end.

Definition LF : ascii := "010"%char.
Definition CR : ascii := "013"%char.

(** Text-mode reading translates ["\r\n"] and ["\r"] to ["\n"]. *)
Fixpoint universal_newlines (s : string) : string :=
  match s with
  | EmptyString => EmptyString
  | String c r =>
      if Ascii.eqb c CR then
        match r with
        | String c' r' =>
            if Ascii.eqb c' LF then String LF (universal_newlines r')
            else String LF (universal_newlines r)
        | EmptyString => String LF EmptyString
        end
      else String c (universal_newlines r)
  end.

(** Iterating over a text file: the lines, each with its ["\n"], the last
    one without when the text does not end in one. *)
Fixpoint readlines (s : string) : list string :=
  match s with
  | EmptyString => []
  | String c r =>
      if Ascii.eqb c LF then String LF EmptyString :: readlines r
      else match readlines r with
           | [] => [String c EmptyString]
           | l :: ls => String c l :: ls
           end
  end.

(** [[x.rstrip() for x in open(path)]] on the text of the file. *)
Definition gene_names (text : string) : list string :=
  map rstrip (readlines (universal_newlines text)).

(** The value of a decimal digit. *)
Definition digit_val (c : ascii) : option Z :=
  let n := nat_of_ascii c in
  if ((48 <=? n) && (n <=? 57))%nat then Some (Z.of_nat n - 48) else None.

(** The digits of an [int] literal: decimal digits, a single underscore
    allowed between two digits.  [prev] tells whether the character
    before was a digit. *)
Fixpoint int_digits (s : string) (acc : Z) (prev : bool) : option Z :=
  match s with
  | EmptyString => if prev then Some acc else None
  | String c r =>
      match digit_val c with
      | Some d => int_digits r (10 * acc + d) true
      | None =>
          if Ascii.eqb c "_"%char && prev then
            match r with
            | String c' _ =>
                match digit_val c' with
                | Some _ => int_digits r acc false
                | None => None
                end
            | EmptyString => None
            end
          else None
      end
  end.

(** [int(s)]: blanks around, an optional sign, then the digits; [None]
    stands for the [ValueError]. *)
Definition py_int (s : string) : option Z :=
  match rstrip (lstrip s) with
  | String "-" r => Z.opp <$> int_digits r 0 false
  | String "+" r => int_digits r 0 false
  | t => int_digits t 0 false
  end.

(** [os.path.join(a, b)]. *)
Definition endswith_slash (a : string) : bool :=
  match String.rev a with
  | String "/" _ => true
  | _ => false
  end.

Definition path_join (a b : string) : string :=
  if startswith "/" b then b
  else if (String.eqb a "" || endswith_slash a)%bool then a ++ b
  else a ++ "/" ++ b.

(** ["\n"]. *)
Definition nl : string := String LF EmptyString.

(** ** The world the script runs in *)

(** A path names a regular file with its text, or a directory with the
    names [os.listdir] gives and the size [os.stat] reports for it.
    Paths are the keys as the script writes them. *)
Inductive node : Type :=
| File (content : string)
| Dir (entries : list string) (st_size : Z).

Record World : Type := mkWorld {
  fs : gmap string node;            (* the working directory *)
  stderr : list string;             (* the [sys.stderr.write] calls, oldest first *)
  calls : list string;              (* the commands given to [subprocess.call] *)
  copies : list (string * string)   (* the [shutil.copy] calls, (src, dst) *)
}.

Definition set_fs (f : gmap string node) (w : World) : World :=
  mkWorld f (stderr w) (calls w) (copies w).

(** The exceptions the script can meet, and [sys.exit]. *)
Inductive exn : Type :=
| FileNotFoundError (path : string)
| IsADirectoryError (path : string)
| NotADirectoryError (path : string)
| ValueError (literal : string)
| IndexError
| SystemExit (code : Z).

(** A computation ends with a value or with an exception, in a world. *)
Inductive outcome (A : Type) : Type :=
| Ret (a : A) (w : World)
| Raise (e : exn) (w : World).
Arguments Ret {A} a w.
Arguments Raise {A} e w.

Definition M (A : Type) : Type := World -> outcome A.

Definition ret {A : Type} (a : A) : M A := fun w => Ret a w.

Definition raise {A : Type} (e : exn) : M A := fun w => Raise e w.

Definition bind {A B : Type} (c : M A) (k : A -> M B) : M B :=
  fun w =>
    match c w with
    | Ret a w' => k a w'
    | Raise e w' => Raise e w'
    end.

Notation "x <- c ;; k" := (bind c (fun x => k))
  (at level 100, c at next level, right associativity).
Notation "c ;; k" := (bind c (fun _ => k))
  (at level 100, right associativity).

Definition world_of {A : Type} (o : outcome A) : World :=
  match o with
  | Ret _ w => w
  | Raise _ w => w
  end.

(** [os.path.isfile(p)]. *)
Definition is_file (f : gmap string node) (p : string) : bool :=
  match f !! p with
  | Some (File _) => true
  | _ => false
  end.

Definition isfile (p : string) : M bool := fun w => Ret (is_file (fs w) p) w.

(** [os.remove(p)]. *)
Definition remove (p : string) : M unit := fun w =>
  match fs w !! p with
  | Some (File _) => Ret tt (set_fs (delete p (fs w)) w)
  | Some (Dir _ _) => Raise (IsADirectoryError p) w
  | None => Raise (FileNotFoundError p) w
  end.

(** [[x.rstrip() for x in open(p)]]. *)
Definition read_genes (p : string) : M (list string) := fun w =>
  match fs w !! p with
  | Some (File text) => Ret (gene_names text) w
  | Some (Dir _ _) => Raise (IsADirectoryError p) w
  | None => Raise (FileNotFoundError p) w
  end.

(** [open(p, 'w')] followed by one [write(text)] and the close. *)
Definition write_file (p text : string) : M unit := fun w =>
  Ret tt (set_fs (<[p := File text]> (fs w)) w).

(** One more [write(text)] on the file opened at [p]. *)
Definition append_file (p text : string) : M unit := fun w =>
  match fs w !! p with
  | Some (File old) => Ret tt (set_fs (<[p := File (old ++ text)]> (fs w)) w)
  | _ => Ret tt (set_fs (<[p := File text]> (fs w)) w)
  end.

(** [os.listdir(p)]. *)
Definition listdir (p : string) : M (list string) := fun w =>
  match fs w !! p with
  | Some (Dir names _) => Ret names w
  | Some (File _) => Raise (NotADirectoryError p) w
  | None => Raise (FileNotFoundError p) w
  end.

(** [os.stat(p).st_size]. *)
Definition stat_size (p : string) : M Z := fun w =>
  match fs w !! p with
  | Some (File text) => Ret (Z.of_nat (String.length text)) w
  | Some (Dir _ sz) => Ret sz w
  | None => Raise (FileNotFoundError p) w
  end.

(** [shutil.copy(src, dst)], [dst] the path of a regular file. *)
Definition copy (src dst : string) : M unit := fun w =>
  match fs w !! src with
  | Some (File text) =>
      Ret tt (mkWorld (<[dst := File text]> (fs w)) (stderr w) (calls w)
                      (copies w ++ [(src, dst)]))
  | Some (Dir _ _) => Raise (IsADirectoryError src) w
  | None => Raise (FileNotFoundError src) w
  end.

(** [sys.stderr.write(text)]. *)
Definition write_stderr (text : string) : M unit := fun w =>
  Ret tt (mkWorld (fs w) (stderr w ++ [text]) (calls w) (copies w)).

(** ** The script *)

(** ["{}/{}_spades/contigs.fasta".format(gene, gene)]. *)
Definition contigs_path (gene : string) : string :=
  gene ++ "/" ++ gene ++ "_spades/contigs.fasta".

(** ["{}/{}_contigs.fasta".format(gene, gene)]. *)
Definition flat_path (gene : string) : string :=
  gene ++ "/" ++ gene ++ "_contigs.fasta".

(** The template itself, as line 110 gives it to [os.stat]. *)
Definition unformatted_path : string := "{}/{}_spades/contigs.fasta".

(** Python's truth value of [cpu]: [None] and [0] are false. *)
Definition cpu_set (cpu : option Z) : option Z :=
  match cpu with
  | Some n => if n =? 0 then None else Some n
  | None => None
  end.

(** [kvals] after lines 17-18, when it is true: a list that is not empty
    has been joined with commas, and the joined text is not empty. *)
Definition kvals_set (kvals : option (list string)) : option string :=
  match kvals with
  | Some (x :: l) =>
      let joined := join "," (x :: l) in
      if String.eqb joined "" then None else Some joined
  | _ => None
  end.

Definition make_spades_cmd (genelist : string) (cov_cutoff : Z)
    (cpu : option Z) (paired : bool) (kvals : option (list string)) : string :=
  let fileflag := if paired then "--12" else "-s" in
  match cpu_set cpu with
  | Some n =>
      match kvals_set kvals with
      | Some ks =>
          "time parallel -j " ++ str_Z n ++
          " --eta spades.py --only-assembler -k " ++ ks ++
          " --threads 1 --cov-cutoff " ++ str_Z cov_cutoff ++ " " ++ fileflag ++
          " {}/{}_interleaved.fasta -o {}/{}_spades :::: " ++ genelist ++
          " > spades.log"
      | None =>
          "time parallel -j " ++ str_Z n ++
          " --eta spades.py --only-assembler --threads 1 --cov-cutoff " ++
          str_Z cov_cutoff ++ " " ++ fileflag ++
          " {}/{}_interleaved.fasta -o {}/{}_spades :::: " ++ genelist ++
          " > spades.log"
      end
  | None =>
      match kvals_set kvals with
      | Some ks =>
          "time parallel --eta spades.py --only-assembler -k " ++ ks ++
          " --threads 1 --cov-cutoff " ++ str_Z cov_cutoff ++ " " ++ fileflag ++
          " {}/{}_interleaved.fasta -o {}/{}_spades :::: " ++ genelist ++
          " > spades.log"
      | None =>
          "time parallel --eta spades.py --only-assembler --threads 1 --cov-cutoff " ++
          str_Z cov_cutoff ++ " " ++ fileflag ++
          " {}/{}_interleaved.fasta -o {}/{}_spades :::: " ++ genelist ++
          " > spades.log"
      end
  end.

(** The message of lines 45 and 105. *)
Definition assembly_warning : string :=
  "ERROR: One or more genes had an error with SPAdes assembly. This may be due to low coverage. No contigs found for the following genes:" ++ nl.

(** The restart command of line 85. *)
Definition restart_cmd (restart_k kvals : string) (cov_cutoff : Z) (gene : string) : string :=
  "spades.py --restart-from " ++ restart_k ++ " -k " ++ kvals ++
  " --threads 1 --cov-cutoff " ++ str_Z cov_cutoff ++ " -o " ++ gene ++ "/" ++
  gene ++ "_spades".

(** The redo command of lines 89-92. *)
Definition redo_spades_cmd (cpu : option Z) : string :=
  match cpu_set cpu with
  | Some n =>
      "parallel -j " ++ str_Z n ++
      " --eta :::: redo_spades_commands.txt > spades_redo.log"
  | None => "parallel --eta :::: redo_spades_commands.txt > spades_redo.log"
  end.

(** [[int(x[1:]) for x in names if x.startswith("K")]]. *)
Fixpoint kmers_of (names : list string) : M (list Z) :=
  match names with
  | [] => ret []
  | x :: rest =>
      if startswith "K" x then
        match py_int (tail1 x) with
        | Some k => ks <- kmers_of rest ;; ret (k :: ks)
        | None => raise (ValueError (tail1 x))
        end
      else kmers_of rest
  end.

(** The names of a listing that start with ["K"]. *)
Fixpoint k_names (names : list string) : list string :=
  match names with
  | [] => []
  | x :: rest => if startswith "K" x then x :: k_names rest else k_names rest
  end.

Section Runner.

(** [subprocess.call(cmd, shell=True)] from outside: the exit code and
    the directory left by the command, from the command and the
    directory it starts in. *)
Variable run : string -> gmap string node -> Z * gmap string node.

Definition call (cmd : string) : M Z := fun w =>
  let r := run cmd (fs w) in
  Ret (fst r) (mkWorld (snd r) (stderr w) (calls w ++ [cmd]) (copies w)).

(** Lines 44-45 and 104-105: [if exitcode:] the warning. *)
Definition warn_exitcode (exitcode : Z) : M unit :=
  if exitcode =? 0 then ret tt else write_stderr assembly_warning.

(** Lines 50-56, on the lists [spades_successful] and [spades_failed]. *)
Fixpoint initial_loop (genes : list string)
    (spades_successful spades_failed : list string)
    : M (list string * list string) :=
  match genes with
  | [] => ret (spades_successful, spades_failed)
  | gene :: rest =>
      found <- isfile (contigs_path gene) ;;
      if found then
        copy (contigs_path gene) (flat_path gene) ;;
        initial_loop rest (spades_successful ++ [gene]) spades_failed
      else
        write_stderr (gene ++ nl) ;;
        initial_loop rest spades_successful (spades_failed ++ [gene])
  end.

(** Lines 34-56: everything but the [return]; gives both lists. *)
Definition spades_initial_lists (genelist : string) (cov_cutoff : Z)
    (cpu : option Z) (paired : bool) (kvals : option (list string))
    : M (list string * list string) :=
  stale <- isfile "spades.log" ;;
  (if stale then remove "spades.log" else ret tt) ;;
  genes <- read_genes genelist ;;
  let spades_cmd := make_spades_cmd genelist cov_cutoff cpu paired kvals in
  write_stderr ("Running SPAdes on " ++ str_Z (Z.of_nat (length genes)) ++ " genes" ++ nl) ;;
  write_stderr (spades_cmd ++ nl) ;;
  exitcode <- call spades_cmd ;;
  warn_exitcode exitcode ;;
  initial_loop genes [] [].

Definition spades_initial (genelist : string) (cov_cutoff : Z)
    (cpu : option Z) (paired : bool) (kvals : option (list string))
    : M (list string) :=
  lists <- spades_initial_lists genelist cov_cutoff cpu paired kvals ;;
  ret (snd lists).

(** Lines 72-86, on the lists [spades_duds] and [genes_redos]. *)
Fixpoint kmer_loop (cov_cutoff : Z) (genes : list string)
    (spades_duds genes_redos : list string)
    : M (list string * list string) :=
  match genes with
  | [] => ret (spades_duds, genes_redos)
  | gene :: rest =>
      names <- listdir (path_join gene (gene ++ "_spades")) ;;
      parsed <- kmers_of names ;;
      let all_kmers := merge_sort Z.le parsed in
      if (length all_kmers <? 2)%nat then
        write_stderr ("WARNING: All Kmers failed for " ++ gene ++ "!" ++ nl) ;;
        kmer_loop cov_cutoff rest (spades_duds ++ [gene]) genes_redos
      else
        let redo_kmers := map str_Z (removelast all_kmers) in
        match last redo_kmers with
        | None => raise IndexError
        | Some k =>
            let restart_k := "k" ++ k in
            let kvals := join "," redo_kmers in
            let spades_cmd := restart_cmd restart_k kvals cov_cutoff gene in
            append_file "redo_spades_commands.txt" (spades_cmd ++ nl) ;;
            kmer_loop cov_cutoff rest spades_duds (genes_redos ++ [gene])
        end
  end.

(** Lines 107-120, on the lists [spades_successful] and [spades_failed]. *)
Fixpoint redo_loop (genes_redos : list string)
    (spades_successful spades_failed : list string)
    : M (list string * list string) :=
  match genes_redos with
  | [] => ret (spades_successful, spades_failed)
  | gene :: rest =>
      found <- isfile (contigs_path gene) ;;
      gene_failed <-
        (if found then
           size <- stat_size unformatted_path ;;
           if 0 <? size then
             copy (contigs_path gene) (flat_path gene) ;; ret false
           else ret true
         else ret true) ;;
      if gene_failed : bool then
        write_stderr (gene ++ nl) ;;
        redo_loop rest spades_successful (spades_failed ++ [gene])
      else
        redo_loop rest (spades_successful ++ [gene]) spades_failed
  end.

(** Lines 60-120: everything but the [return]; gives the three lists
    [(spades_successful, spades_failed, spades_duds)]. *)
Definition rerun_spades_lists (genelist : string) (cov_cutoff : Z)
    (cpu : option Z) (paired : bool)
    : M (list string * list string * list string) :=
  genes <- read_genes genelist ;;
  write_file "redo_spades_commands.txt" "" ;;
  first <- kmer_loop cov_cutoff genes [] [] ;;
  let spades_duds := fst first in
  let genes_redos := snd first in
  write_file "spades_duds.txt" (join nl spades_duds) ;;
  write_stderr ("Re-running SPAdes for " ++ str_Z (Z.of_nat (length genes_redos)) ++ " genes" ++ nl) ;;
  write_stderr (redo_spades_cmd cpu ++ nl) ;;
  exitcode <- call (redo_spades_cmd cpu) ;;
  warn_exitcode exitcode ;;
  second <- redo_loop genes_redos [] [] ;;
  ret (fst second, snd second, spades_duds).

Definition rerun_spades (genelist : string) (cov_cutoff : Z)
    (cpu : option Z) (paired : bool) : M (list string * list string) :=
  lists <- rerun_spades_lists genelist cov_cutoff cpu paired ;;
  ret (snd (fst lists), snd lists).

(** The parsed command line. *)
Record Args : Type := mkArgs {
  genelist : string;
  cpu : Z;
  cov_cutoff : Z;
  kvals : option (list string);
  redos_only : bool
}.

(** Lines 136-149. *)
Definition main (args : Args) : M unit :=
  have_failed <- isfile "failed_spades.txt" ;;
  if have_failed && redos_only args then
    spades_failed <- rerun_spades "failed_spades.txt" 8 None true ;;
    ret tt
  else
    spades_failed <- spades_initial (genelist args) (cov_cutoff args)
                       (Some (cpu args)) true (kvals args) ;;
    if (0 <? length spades_failed)%nat then
      write_file "failed_spades.txt" (join nl spades_failed) ;;
      redo <- rerun_spades "failed_spades.txt" (cov_cutoff args) None true ;;
      if (length (fst redo) =? 0)%nat then
        write_stderr ("All redos completed successfully!" ++ nl)
      else raise (SystemExit 1)
    else ret tt.


End Runner.

(** ** Vocabulary of the statements *)

(** The gene has its result file in the directory [f]. *)
Definition has_contigs (f : gmap string node) (gene : string) : bool :=
  is_file f (contigs_path gene).


(** The directory after the result file of each gene that has one has
    been copied to the gene's flat name. *)
Fixpoint copy_results (f : gmap string node) (genes : list string)
    : gmap string node :=
  match genes with
  | [] => f
  | gene :: rest =>
      match f !! contigs_path gene with
      | Some (File text) => copy_results (<[flat_path gene := File text]> f) rest
      | _ => copy_results f rest
      end
  end.


(** The directory once lines 34-35 have removed a stale [spades.log]. *)
Definition without_log (f : gmap string node) : gmap string node :=
  if is_file f "spades.log" then delete "spades.log" f else f.

(** What [warn_exitcode] writes. *)
Definition warning_of (exitcode : Z) : list string :=
  if exitcode =? 0 then [] else [assembly_warning].

(** [os.stat(p).st_size] read off a directory; [None] when nothing is
    at [p]. *)
Definition size_at (f : gmap string node) (p : string) : option Z :=
  match f !! p with
  | Some (File text) => Some (Z.of_nat (String.length text))
  | Some (Dir _ sz) => Some sz
  | None => None
  end.

(** The test lines 109-110 make for a gene, in the directory [f]: its
    result file exists and the size found at the unformatted path is
    positive. *)
Definition redo_ok (f : gmap string node) (gene : string) : bool :=
  has_contigs f gene &&
  match size_at f unformatted_path with
  | Some sz => 0 <? sz
  | None => false
  end.

Definition redo_bad (f : gmap string node) (gene : string) : bool :=
  negb (redo_ok f gene).

(** What a computation gives back: its value, or the exception. *)
Definition result_of {A : Type} (o : outcome A) : A + exn :=
  match o with
  | Ret a _ => inl a
  | Raise e _ => inr e
  end.

(** The path of [redo_cmds_file]. *)
Definition redo_commands_path : string := "redo_spades_commands.txt".

(** [os.path.join(gene, "{}_spades".format(gene))]. *)
Definition kmer_dir (gene : string) : string := path_join gene (gene ++ "_spades").

(** The names [os.listdir] finds in the assembly directory of a gene;
    [None] when that path is not a directory. *)
Definition listing (f : gmap string node) (gene : string) : option (list string) :=
  match f !! kmer_dir gene with
  | Some (Dir names _) => Some names
  | _ => None
  end.

(** The comprehension of line 73 without the world: the k-mers, or the
    first text [int] refuses. *)
Fixpoint parse_kmers (names : list string) : string + list Z :=
  match names with
  | [] => inr []
  | x :: rest =>
      if startswith "K" x then
        match py_int (tail1 x) with
        | Some k =>
            match parse_kmers rest with
            | inr ks => inr (k :: ks)
            | inl bad => inl bad
            end
        | None => inl (tail1 x)
        end
      else parse_kmers rest
  end.

(** The number of names starting with ["K"] in the assembly directory. *)
Definition k_count (f : gmap string node) (gene : string) : nat :=
  match listing f gene with
  | Some names => length (k_names names)
  | None => 0
  end.

(** Fewer than two such names. *)
Definition is_dud (f : gmap string node) (gene : string) : bool :=
  (k_count f gene <? 2)%nat.

Definition not_dud (f : gmap string node) (gene : string) : bool :=
  negb (is_dud f gene).

(** Lines 74 and 82 on the k-mers of a gene: sorted, the last dropped,
    written in decimal. *)
Definition redo_kmers_of (ks : list Z) : list string :=
  map str_Z (removelast (merge_sort Z.le ks)).

(** The line [kmer_loop] writes for a gene that is redone. *)
Definition redo_line (cov_cutoff : Z) (f : gmap string node) (gene : string) : string :=
  match listing f gene with
  | Some names =>
      match parse_kmers names with
      | inr ks =>
          restart_cmd ("k" ++ default "" (last (redo_kmers_of ks)))
            (join "," (redo_kmers_of ks)) cov_cutoff gene ++ nl
      | inl _ => ""
      end
  | None => ""
  end.

(** The text a file opened at [p] has, [""] before the first write. *)
Definition text_at (f : gmap string node) (p : string) : string :=
  match f !! p with
  | Some (File text) => text
  | _ => ""
  end.

(** The world in which line 72 starts: the command file just opened. *)
Definition commands_opened (w : World) : World :=
  set_fs (<[redo_commands_path := File ""]> (fs w)) w.

(** The directory the redo command runs in, from the world the k-mer
    pass leaves and its duds. *)
Definition redo_start (w1 : World) (duds : list string) : gmap string node :=
  <["spades_duds.txt" := File (join nl duds)]> (fs w1).





(** Every command a computation gives to [subprocess.call] satisfies [P]. *)
Definition emits {A : Type} (P : string -> Prop) (m : M A) : Prop :=
  forall (w : World) (c : string),
    In c (calls (world_of (m w))) -> In c (calls w) \/ P c.

(** The redo command without [-j]. *)
Definition redo_cmd_unlimited : string :=
  "parallel --eta :::: redo_spades_commands.txt > spades_redo.log".

(** ** Runs of the script on small directories *)

(** An external run: the initial command gives [g1] its contigs, leaves
    [g2] with three k-mer directories and [g3] with one, and exits with
    1; the redo command gives nothing more, and exits with 1 unless its
    command file is empty. *)
Definition demo_run (cmd : string) (f : gmap string node) : Z * gmap string node :=
  if startswith "time parallel" cmd then
    (1, <["g1/g1_spades/contigs.fasta" := File ">NODE_1"]>
          (<["g1/g1_spades" := Dir ["K21"; "K33"; "contigs.fasta"] 4096]>
             (<["g2/g2_spades" := Dir ["K21"; "K55"; "params.txt"; "K33"] 4096]>
                (<["g3/g3_spades" := Dir ["K21"; "params.txt"] 4096]>
                   (<["spades.log" := File "log"]> f)))))
  else (if String.eqb (text_at f redo_commands_path) "" then 0 else 1,
        <["spades_redo.log" := File "log"]> f).

(** Three genes: [g1] assembles, [g2] is redone and fails again, [g3] is
    a dud. *)
Definition demo_world : World :=
  mkWorld {[ "genes.txt" := File ("g1" ++ nl ++ "g2" ++ nl ++ "g3" ++ nl) ]} [] [] [].

(** Two genes: [g1] assembles, [g3] is a dud. *)
Definition dud_world : World :=
  mkWorld {[ "genes.txt" := File ("g1" ++ nl ++ "g3" ++ nl) ]} [] [] [].

Definition demo_args : Args := mkArgs "genes.txt" 4 10 None false.

(** The directory a first run has left: [g2] and [g3] failed. *)
Definition redo_world : World :=
  mkWorld (<["failed_spades.txt" := File ("g2" ++ nl ++ "g3")]>
             (snd (demo_run "time parallel" (fs demo_world)))) [] [] [].

Definition redos_args : Args := mkArgs "genes.txt" 4 10 None true.

(** The redo list is empty. *)
Definition idle_world : World :=
  mkWorld {[ "failed_spades.txt" := File "" ]} [] [] [].

(** [g2] has an empty result file; nothing is at the unformatted path. *)
Definition lookup_world : World :=
  mkWorld {[ "g2/g2_spades/contigs.fasta" := File "" ]} [] [] [].

(** [g2] has an empty result file; a file of four bytes is at the
    unformatted path. *)
Definition sized_world : World :=
  mkWorld (<[unformatted_path := File "ACGT"]>
             {[ "g2/g2_spades/contigs.fasta" := File "" ]}) [] [] [].

(** ** Vocabulary of the further properties *)



(** The commands a computation gives to [subprocess.call] are some of
    [cmds], each at most once, in that order. *)
Definition runs_within {A : Type} (cmds : list string) (m : M A) : Prop :=
  forall w : World,
    exists l : list string,
      calls (world_of (m w)) = (calls w ++ l)%list /\ sublist l cmds.


(** No gene list at all. *)
Definition bare_world : World := mkWorld ∅ [] [] [].


(** * Properties *)

(** ** Strings *)

Lemma append_cons (x : ascii) (a b : string) : String x a ++ b = String x (a ++ b).
Proof. reflexivity. Qed.

Lemma append_nil_l (b : string) : "" ++ b = b.
Proof. reflexivity. Qed.

Lemma append_nil_r (s : string) : s ++ "" = s.
Proof.
  induction s as [|c s IH]; [reflexivity|].
  now rewrite append_cons, IH.
Qed.

Lemma append_assoc (a b c : string) : (a ++ b) ++ c = a ++ (b ++ c).
Proof.
  induction a as [|x a IH]; [reflexivity|].
  now rewrite !append_cons, IH.
Qed.

Lemma length_append (a b : string) :
  String.length (a ++ b) = (String.length a + String.length b)%nat.
Proof.
  induction a as [|x a IH]; [reflexivity|].
  rewrite append_cons. simpl. now rewrite IH.
Qed.

Lemma prefix_nil (s : string) : String.prefix "" s = true.
Proof. now destruct s. Qed.

Lemma prefix_cons (c x : ascii) (f s : string) :
  String.prefix (String c f) (String x s) =
  if ascii_dec c x then String.prefix f s else false.
Proof. reflexivity. Qed.

Lemma prefix_refl_app (f b : string) : String.prefix f (f ++ b) = true.
Proof.
  induction f as [|c f IH]; [apply prefix_nil|].
  rewrite append_cons, prefix_cons.
  destruct (ascii_dec c c); [exact IH | congruence].
Qed.

Lemma prefix_app_l (f a b : string) :
  String.prefix f a = true -> String.prefix f (a ++ b) = true.
Proof.
  revert a; induction f as [|c f IH]; intros a H; [apply prefix_nil|].
  destruct a as [|x a]; [discriminate|].
  rewrite append_cons, prefix_cons. rewrite prefix_cons in H.
  destruct (ascii_dec c x); [now apply IH | discriminate].
Qed.

Lemma contains_cons (f : string) (x : ascii) (s : string) :
  contains f (String x s) = String.prefix f (String x s) || contains f s.
Proof. reflexivity. Qed.

Lemma contains_app_l (f a b : string) :
  contains f a = true -> contains f (a ++ b) = true.
Proof.
  induction a as [|x a IH]; intros H.
  - destruct f; [|discriminate]. rewrite append_nil_l.
    destruct b; reflexivity.
  - rewrite contains_cons in H. rewrite append_cons, contains_cons.
    apply orb_true_iff in H as [H|H]; apply orb_true_iff.
    + left. rewrite <- append_cons. now apply prefix_app_l.
    + right. now apply IH.
Qed.

Lemma contains_app_r (f a b : string) :
  contains f b = true -> contains f (a ++ b) = true.
Proof.
  intros H. induction a as [|x a IH]; [exact H|].
  rewrite append_cons, contains_cons, IH. apply orb_true_r.
Qed.

Lemma contains_prefix (f s : string) :
  String.prefix f s = true -> contains f s = true.
Proof.
  intros H. destruct s as [|x s].
  - destruct f; [reflexivity | discriminate].
  - now rewrite contains_cons, H.
Qed.

Lemma contains_mid (f a b : string) : contains f (a ++ f ++ b) = true.
Proof. apply contains_app_r, contains_prefix, prefix_refl_app. Qed.

(** A fragment without a blank lies on one side of a blank. *)
Lemma prefix_blank (f a b : string) :
  has_char " " f = false ->
  String.prefix f (a ++ String " " b) = String.prefix f a.
Proof.
  revert a; induction f as [|c f IH]; intros a H.
  - now rewrite !prefix_nil.
  - simpl in H. apply orb_false_iff in H as [Hc Hf].
    destruct a as [|x a].
    + rewrite append_nil_l, prefix_cons.
      destruct (ascii_dec c " ") as [->|]; [discriminate | reflexivity].
    + rewrite append_cons, !prefix_cons.
      destruct (ascii_dec c x); [now apply IH | reflexivity].
Qed.

Lemma contains_blank (f a b : string) :
  f <> "" -> has_char " " f = false ->
  contains f (a ++ String " " b) = contains f a || contains f b.
Proof.
  intros Hne Hf. induction a as [|x a IH].
  - destruct f as [|c f]; [congruence|].
    simpl in Hf. apply orb_false_iff in Hf as [Hc _].
    rewrite append_nil_l, contains_cons, prefix_cons.
    destruct (ascii_dec c " ") as [->|]; [discriminate | reflexivity].
  - rewrite append_cons, !contains_cons, IH, <- append_cons.
    rewrite (prefix_blank f (String x a) b Hf).
    now rewrite orb_assoc.
Qed.

Lemma prefix_no_char (c : ascii) (f s : string) :
  has_char c f = true -> has_char c s = false -> String.prefix f s = false.
Proof.
  revert s; induction f as [|y f IH]; intros s Hf Hs; [discriminate|].
  destruct s as [|x s]; [reflexivity|].
  rewrite prefix_cons. destruct (ascii_dec y x) as [->|]; [|reflexivity].
  simpl in Hf, Hs. apply orb_false_iff in Hs as [Hx Hs].
  rewrite Hx in Hf. now apply IH.
Qed.

Lemma contains_no_char (c : ascii) (f s : string) :
  has_char c f = true -> has_char c s = false -> contains f s = false.
Proof.
  intros Hf Hs. induction s as [|x s IH].
  - destruct f; [discriminate | reflexivity].
  - rewrite contains_cons, (prefix_no_char c f _ Hf Hs).
    simpl in Hs. apply orb_false_iff in Hs as [_ Hs]. now apply IH.
Qed.

Lemma string_of_uint_no_j (d : Decimal.uint) :
  has_char "j" (NilEmpty.string_of_uint d) = false.
Proof. induction d; simpl; auto. Qed.

Lemma str_Z_no_j (z : Z) : has_char "j" (str_Z z) = false.
Proof.
  unfold str_Z. destruct (Z.to_int z) as [d|d]; simpl;
    destruct d; simpl; auto using string_of_uint_no_j.
Qed.

Lemma contains_j_str_Z (z : Z) : contains "-j" (str_Z z) = false.
Proof. apply (contains_no_char "j"); [reflexivity | apply str_Z_no_j]. Qed.

(** ** The command builder *)

(** C5.  With [cpu=4], [kvals=["21","33"]], [cov_cutoff=10] and paired
    reads, the command of [make_spades_cmd] is the one below whatever the
    gene list file, and it contains the fragments ["-j 4"], ["-k 21,33"],
    ["--cov-cutoff 10"] and ["--12"]. *)
Theorem make_spades_cmd_fragments (genelist : string) :
  let cmd := make_spades_cmd genelist 10 (Some 4) true (Some ["21"; "33"]) in
  cmd = "time parallel -j 4 --eta spades.py --only-assembler -k 21,33 --threads 1 --cov-cutoff 10 --12 {}/{}_interleaved.fasta -o {}/{}_spades :::: "
        ++ genelist ++ " > spades.log" /\
  contains "-j 4" cmd = true /\
  contains "-k 21,33" cmd = true /\
  contains "--cov-cutoff 10" cmd = true /\
  contains "--12" cmd = true.
Proof.
  intros cmd.
  assert (E : cmd = "time parallel -j 4 --eta spades.py --only-assembler -k 21,33 --threads 1 --cov-cutoff 10 --12 {}/{}_interleaved.fasta -o {}/{}_spades :::: "
        ++ genelist ++ " > spades.log") by reflexivity.
  split; [exact E|]. rewrite E.
  repeat split; apply contains_app_l; vm_compute; reflexivity.
Qed.

(** The command without [-j], cut at the blanks around the caller's text. *)
Lemma make_spades_cmd_unset (genelist : string) (cov_cutoff : Z) (cpu : option Z)
    (paired : bool) (kvals : option (list string)) :
  cpu_set cpu = None ->
  let tail :=
    "--threads 1 --cov-cutoff" ++ String " "
      (str_Z cov_cutoff ++ String " "
         (((if paired then "--12" else "-s") ++
           " {}/{}_interleaved.fasta -o {}/{}_spades ::::") ++ String " "
            (genelist ++ String " " "> spades.log"))) in
  make_spades_cmd genelist cov_cutoff cpu paired kvals =
  "time parallel --eta spades.py --only-assembler" ++ String " "
    match kvals_set kvals with
    | Some ks => "-k" ++ String " " (ks ++ String " " tail)
    | None => tail
    end.
Proof.
  intros H. unfold make_spades_cmd. rewrite H.
  destruct (kvals_set kvals), paired; reflexivity.
Qed.

Lemma make_spades_cmd_set (genelist : string) (cov_cutoff : Z) (cpu : option Z)
    (paired : bool) (kvals : option (list string)) (n : Z) :
  cpu_set cpu = Some n ->
  make_spades_cmd genelist cov_cutoff cpu paired kvals =
  "time parallel -j " ++ str_Z n ++ " --eta spades.py " ++
    match kvals_set kvals with
    | Some ks =>
        "--only-assembler -k " ++ ks ++
        " --threads 1 --cov-cutoff " ++ str_Z cov_cutoff ++ " " ++
        (if paired then "--12" else "-s") ++
        " {}/{}_interleaved.fasta -o {}/{}_spades :::: " ++ genelist ++
        " > spades.log"
    | None =>
        "--only-assembler --threads 1 --cov-cutoff " ++
        str_Z cov_cutoff ++ " " ++ (if paired then "--12" else "-s") ++
        " {}/{}_interleaved.fasta -o {}/{}_spades :::: " ++ genelist ++
        " > spades.log"
    end.
Proof.
  intros H. unfold make_spades_cmd. rewrite H.
  destruct (kvals_set kvals); reflexivity.
Qed.

Lemma prefix_three (a n e r : string) :
  String.prefix (a ++ n ++ e) (a ++ n ++ e ++ r) = true.
Proof.
  rewrite <- (append_assoc n e r), <- (append_assoc a (n ++ e) r).
  apply prefix_refl_app.
Qed.

Lemma parallel_j_split (n x : string) :
  "time parallel -j " ++ n ++ x = "time parallel " ++ ("-j " ++ n) ++ x.
Proof. rewrite (append_assoc "-j " n x). reflexivity. Qed.

(** C6.  With [cpu] unset or 0 the command starts
    ["time parallel --eta spades.py"], so parallel is given no [-j], and
    ["-j"] occurs in the command only where the caller's own k-mer text
    or gene list path has it; with a positive [cpu = n] the command
    starts ["time parallel -j n --eta spades.py"] and so contains
    ["-j n"]. *)
Theorem make_spades_cmd_cpu_flag (genelist : string) (cov_cutoff : Z)
    (paired : bool) (kvals : option (list string)) :
  (forall cpu : option Z, cpu = None \/ cpu = Some 0 ->
     let cmd := make_spades_cmd genelist cov_cutoff cpu paired kvals in
     startswith "time parallel --eta spades.py " cmd = true /\
     contains "-j" cmd =
       match kvals_set kvals with
       | Some ks => contains "-j" ks
       | None => false
       end || contains "-j" genelist) /\
  (forall n : Z, 0 < n ->
     let cmd := make_spades_cmd genelist cov_cutoff (Some n) paired kvals in
     startswith ("time parallel -j " ++ str_Z n ++ " --eta spades.py ") cmd = true /\
     contains ("-j " ++ str_Z n) cmd = true).
Proof.
  split.
  - intros cpu Hcpu cmd.
    assert (Hset : cpu_set cpu = None) by (destruct Hcpu as [->| ->]; reflexivity).
    subst cmd. rewrite (make_spades_cmd_unset _ _ _ _ _ Hset).
    split; [reflexivity|].
    assert (Hj : "-j" <> "") by discriminate.
    assert (Hb : has_char " " "-j" = false) by reflexivity.
    cbv zeta.
    destruct (kvals_set kvals) as [ks|], paired;
      rewrite !(contains_blank "-j" _ _ Hj Hb), contains_j_str_Z;
      try destruct (contains "-j" ks); destruct (contains "-j" genelist);
      vm_compute; reflexivity.
  - intros n Hn cmd.
    assert (Hset : cpu_set (Some n) = Some n).
    { unfold cpu_set. destruct (Z.eqb_spec n 0); [lia | reflexivity]. }
    subst cmd. rewrite (make_spades_cmd_set _ _ _ _ _ _ Hset). split.
    + apply prefix_three.
    + rewrite parallel_j_split. apply contains_mid.
Qed.

(** ** Paths *)

Lemma append_inj (a b s t : string) :
  String.length a = String.length b -> a ++ s = b ++ t -> a = b /\ s = t.
Proof.
  revert b; induction a as [|x a IH]; intros [|y b] Hlen H; try discriminate.
  - split; [reflexivity | exact H].
  - rewrite !append_cons in H. injection H as -> H.
    injection Hlen as Hlen. destruct (IH b Hlen H) as [-> ->]. now split.
Qed.

Lemma append_inj_suffix (a b s t : string) :
  String.length s = String.length t -> a ++ s = b ++ t -> a = b /\ s = t.
Proof.
  intros Hlen H. apply append_inj; [|exact H].
  apply (f_equal String.length) in H. rewrite !length_append in H. lia.
Qed.

Lemma flat_path_not_contigs (g h : string) : flat_path g <> contigs_path h.
Proof.
  unfold flat_path, contigs_path. intros H.
  change (h ++ "/" ++ h ++ "_spades/contigs.fasta")
    with (h ++ "/" ++ h ++ "_spades" ++ "/contigs.fasta") in H.
  rewrite <- !append_assoc in H.
  apply append_inj_suffix in H as [_ H]; [discriminate | reflexivity].
Qed.

Lemma flat_path_not_unformatted (g : string) : flat_path g <> unformatted_path.
Proof.
  unfold flat_path. intros H.
  change unformatted_path with ("{}/{}_spades" ++ "/contigs.fasta") in H.
  rewrite <- !append_assoc in H.
  apply append_inj_suffix in H as [_ H]; [discriminate | reflexivity].
Qed.


Lemma has_contigs_insert_flat (f : gmap string node) (g h : string) (n : node) :
  has_contigs (<[flat_path g := n]> f) h = has_contigs f h.
Proof.
  unfold has_contigs, is_file.
  rewrite lookup_insert_ne; [reflexivity | apply flat_path_not_contigs].
Qed.

Lemma copy_results_contigs (genes : list string) (f : gmap string node) (h : string) :
  copy_results f genes !! contigs_path h = f !! contigs_path h.
Proof.
  revert f; induction genes as [|g genes IH]; intros f; [reflexivity|].
  simpl. destruct (f !! contigs_path g) as [[text|names sz]|]; rewrite IH;
    [|reflexivity..].
  apply lookup_insert_ne, flat_path_not_contigs.
Qed.

Lemma copy_results_other (genes : list string) (f : gmap string node) (p : string) :
  (forall g, In g genes -> has_contigs f g = true -> p <> flat_path g) ->
  copy_results f genes !! p = f !! p.
Proof.
  revert f; induction genes as [|g genes IH]; intros f Hp; [reflexivity|].
  simpl. destruct (f !! contigs_path g) as [[text|names sz]|] eqn:E.
  - rewrite IH.
    + apply lookup_insert_ne. intros Heq. subst p.
      apply (Hp g); [now left | |reflexivity].
      unfold has_contigs, is_file. now rewrite E.
    + intros h Hh Hc. rewrite has_contigs_insert_flat in Hc.
      apply Hp; [now right | exact Hc].
  - apply IH. intros h Hh. apply Hp. now right.
  - apply IH. intros h Hh. apply Hp. now right.
Qed.


(** ** The initial pass *)


Lemma has_contigs_true (f : gmap string node) (g : string) :
  has_contigs f g = true -> exists text, f !! contigs_path g = Some (File text).
Proof.
  unfold has_contigs, is_file.
  destruct (f !! contigs_path g) as [[text|names sz]|]; try discriminate.
  intros _. now exists text.
Qed.

Lemma copy_results_skip (f : gmap string node) (g : string) (genes : list string) :
  has_contigs f g = false -> copy_results f (g :: genes) = copy_results f genes.
Proof.
  unfold has_contigs, is_file. cbn [copy_results].
  now destruct (f !! contigs_path g) as [[text|names sz]|].
Qed.


Section InitialPass.

Variable run : string -> gmap string node -> Z * gmap string node.

Lemma remove_stale_log {B : Type} (k : M B) (w : World) :
  (stale <- isfile "spades.log" ;;
   (if stale then remove "spades.log" else ret tt) ;; k) w =
  k (set_fs (without_log (fs w)) w).
Proof.
  unfold bind, isfile, without_log, is_file, remove, ret.
  destruct (fs w !! "spades.log") as [[text|names sz]|] eqn:E;
    rewrite ?E; try reflexivity; now destruct w.
Qed.



End InitialPass.

(** ** The second classification (lines 107-120) *)

Lemma stat_size_at (p : string) (w : World) :
  stat_size p w =
  match size_at (fs w) p with
  | Some sz => Ret sz w
  | None => Raise (FileNotFoundError p) w
  end.
Proof.
  unfold stat_size, size_at.
  now destruct (fs w !! p) as [[text|names sz]|].
Qed.

Lemma size_at_insert_flat (f : gmap string node) (g : string) (n : node) :
  size_at (<[flat_path g := n]> f) unformatted_path = size_at f unformatted_path.
Proof.
  unfold size_at.
  rewrite lookup_insert_ne; [reflexivity | apply flat_path_not_unformatted].
Qed.

Lemma redo_ok_insert_flat (f : gmap string node) (g h : string) (n : node) :
  redo_ok (<[flat_path g := n]> f) h = redo_ok f h.
Proof.
  unfold redo_ok. now rewrite has_contigs_insert_flat, size_at_insert_flat.
Qed.

Lemma filter_ext_redo (f f' : gmap string node) (genes : list string) :
  (forall g, redo_ok f' g = redo_ok f g) ->
  List.filter (redo_ok f') genes = List.filter (redo_ok f) genes /\
  List.filter (redo_bad f') genes = List.filter (redo_bad f) genes.
Proof.
  intros H. split; apply List.filter_ext; intros g; unfold redo_bad;
    now rewrite H.
Qed.

(** One turn of the loop for a gene that has its result file. *)
Lemma redo_loop_found (gene : string) (rest succ failed : list string) (w : World) :
  has_contigs (fs w) gene = true ->
  redo_loop (gene :: rest) succ failed w =
  match size_at (fs w) unformatted_path with
  | None => Raise (FileNotFoundError unformatted_path) w
  | Some sz =>
      if 0 <? sz then
        (copy (contigs_path gene) (flat_path gene) ;;
         redo_loop rest (succ ++ [gene]) failed) w
      else
        (write_stderr (gene ++ nl) ;;
         redo_loop rest succ (failed ++ [gene])) w
  end.
Proof.
  intros Hc. cbn [redo_loop]. unfold bind at 1. unfold isfile.
  change (is_file (fs w) (contigs_path gene)) with (has_contigs (fs w) gene).
  rewrite Hc. unfold bind at 1. unfold bind at 1. rewrite stat_size_at.
  destruct (size_at (fs w) unformatted_path) as [sz|]; [|reflexivity].
  destruct (0 <? sz).
  - unfold bind at 1. destruct (has_contigs_true _ _ Hc) as [text E].
    unfold copy at 1. rewrite E. unfold ret at 1.
    unfold bind, copy. rewrite E. reflexivity.
  - reflexivity.
Qed.

(** One turn of the loop for a gene without its result file. *)
Lemma redo_loop_missing (gene : string) (rest succ failed : list string) (w : World) :
  has_contigs (fs w) gene = false ->
  redo_loop (gene :: rest) succ failed w =
  (write_stderr (gene ++ nl) ;; redo_loop rest succ (failed ++ [gene])) w.
Proof.
  intros Hc. cbn [redo_loop]. unfold bind at 1. unfold isfile.
  change (is_file (fs w) (contigs_path gene)) with (has_contigs (fs w) gene).
  rewrite Hc. reflexivity.
Qed.

Lemma copy_step (gene text : string) {B : Type} (k : M B) (w : World) :
  fs w !! contigs_path gene = Some (File text) ->
  (copy (contigs_path gene) (flat_path gene) ;; k) w =
  k (mkWorld (<[flat_path gene := File text]> (fs w)) (stderr w) (calls w)
             (copies w ++ [(contigs_path gene, flat_path gene)])).
Proof. intros E. unfold bind, copy. now rewrite E. Qed.

Lemma write_stderr_step (text : string) {B : Type} (k : M B) (w : World) :
  (write_stderr text ;; k) w =
  k (mkWorld (fs w) (stderr w ++ [text]) (calls w) (copies w)).
Proof. reflexivity. Qed.

(** The loop in closed form when something is at the unformatted path. *)
Lemma redo_loop_sized (sz : Z) (genes : list string) :
  forall (succ failed : list string) (w : World),
    size_at (fs w) unformatted_path = Some sz ->
    redo_loop genes succ failed w =
    Ret ((succ ++ List.filter (redo_ok (fs w)) genes)%list,
         (failed ++ List.filter (redo_bad (fs w)) genes)%list)
        (mkWorld (if 0 <? sz then copy_results (fs w) genes else fs w)
           (stderr w ++ map (fun g => g ++ nl) (List.filter (redo_bad (fs w)) genes))
           (calls w)
           (copies w ++ map (fun g => (contigs_path g, flat_path g))
                            (List.filter (redo_ok (fs w)) genes))).
Proof.
  induction genes as [|g genes IH]; intros succ failed w Hsz.
  - simpl. unfold ret. rewrite !app_nil_r. destruct (0 <? sz); now destruct w.
  - cbn [List.filter].
    assert (Hb : redo_bad (fs w) g = negb (redo_ok (fs w) g)) by reflexivity.
    rewrite !Hb. clear Hb.
    assert (Hok : redo_ok (fs w) g = has_contigs (fs w) g && (0 <? sz)).
    { unfold redo_ok. now rewrite Hsz. }
    destruct (has_contigs (fs w) g) eqn:Hc.
    + rewrite (redo_loop_found _ _ _ _ _ Hc), Hsz, !Hok. cbn [andb].
      destruct (0 <? sz) eqn:Hpos; cbn [negb].
      * destruct (has_contigs_true _ _ Hc) as [text E].
        rewrite (copy_step _ _ _ _ E), IH;
          [| cbn [fs]; now rewrite size_at_insert_flat].
        cbn [fs stderr calls copies copy_results]. rewrite E, ?Hpos.
        destruct (filter_ext_redo (fs w) (<[flat_path g := File text]> (fs w)) genes)
          as [-> ->]; [intros h; apply redo_ok_insert_flat|].
        cbn [map]. now rewrite <- !app_assoc.
      * rewrite write_stderr_step, IH; [| exact Hsz].
        cbn [fs stderr calls copies]. rewrite ?Hpos.
        cbn [map]. now rewrite <- !app_assoc.
    + rewrite (redo_loop_missing _ _ _ _ _ Hc), !Hok. cbn [andb negb].
      rewrite write_stderr_step, IH; [| exact Hsz].
      cbn [fs stderr calls copies].
      rewrite (copy_results_skip _ _ _ Hc).
      cbn [map]. now rewrite <- !app_assoc.
Qed.

(** Nothing at the unformatted path: the first gene that has its result
    file stops the loop with the lookup error on that path. *)
Lemma redo_loop_lookup_error (genes : list string) :
  forall (succ failed : list string) (w : World),
    size_at (fs w) unformatted_path = None ->
    (exists g, In g genes /\ has_contigs (fs w) g = true) ->
    exists w', redo_loop genes succ failed w =
               Raise (FileNotFoundError unformatted_path) w' /\
               fs w' = fs w /\ copies w' = copies w.
Proof.
  induction genes as [|g genes IH]; intros succ failed w Hsz [h [Hin Hh]].
  - destruct Hin.
  - destruct (has_contigs (fs w) g) eqn:Hc.
    + rewrite (redo_loop_found _ _ _ _ _ Hc), Hsz. now exists w.
    + rewrite (redo_loop_missing _ _ _ _ _ Hc), write_stderr_step.
      destruct Hin as [->|Hin]; [congruence|].
      apply (IH succ (failed ++ [g])%list
               (mkWorld (fs w) (stderr w ++ [g ++ nl]) (calls w) (copies w)));
        [exact Hsz | now exists h].
Qed.

(** Nothing at the unformatted path and no gene with a result file. *)
Lemma redo_loop_all_missing (genes : list string) :
  forall (succ failed : list string) (w : World),
    (forall g, In g genes -> has_contigs (fs w) g = false) ->
    redo_loop genes succ failed w =
    Ret (succ, (failed ++ genes)%list)
        (mkWorld (fs w) (stderr w ++ map (fun g => g ++ nl) genes)
                 (calls w) (copies w)).
Proof.
  induction genes as [|g genes IH]; intros succ failed w Hall.
  - simpl. unfold ret. rewrite !app_nil_r. now destruct w.
  - rewrite redo_loop_missing by (apply Hall; now left).
    rewrite write_stderr_step, IH by (intros h Hh; apply Hall; now right).
    cbn [fs stderr calls copies map]. now rewrite <- !app_assoc.
Qed.

(** Whenever the loop returns, its lists are the genes split by the test
    of lines 109-110. *)
Lemma redo_loop_returns (genes succ failed succ' failed' : list string) (w w' : World) :
  redo_loop genes succ failed w = Ret (succ', failed') w' ->
  succ' = (succ ++ List.filter (redo_ok (fs w)) genes)%list /\
  failed' = (failed ++ List.filter (redo_bad (fs w)) genes)%list /\
  calls w' = calls w /\
  copies w' = (copies w ++ map (fun g => (contigs_path g, flat_path g))
                             (List.filter (redo_ok (fs w)) genes))%list.
Proof.
  intros H. destruct (size_at (fs w) unformatted_path) as [sz|] eqn:Hsz.
  - rewrite (redo_loop_sized sz genes succ failed w Hsz) in H.
    injection H as <- <- <-. now repeat split.
  - destruct (existsb (has_contigs (fs w)) genes) eqn:Hex.
    + apply existsb_exists in Hex.
      destruct (redo_loop_lookup_error genes succ failed w Hsz Hex) as [w2 [H2 _]].
      congruence.
    + assert (Hall : forall g, In g genes -> has_contigs (fs w) g = false).
      { intros g Hin. destruct (has_contigs (fs w) g) eqn:Hc; [|reflexivity].
        assert (existsb (has_contigs (fs w)) genes = true)
          by (apply existsb_exists; now exists g).
        congruence. }
      rewrite (redo_loop_all_missing genes succ failed w Hall) in H.
      injection H as <- <- <-. cbn [calls copies].
      assert (Hok : List.filter (redo_ok (fs w)) genes = []).
      { clear -Hall. induction genes as [|g genes IH]; [reflexivity|].
        cbn [List.filter]. unfold redo_ok at 1.
        rewrite (Hall g) by now left. cbn [andb].
        apply IH. intros h Hh. apply Hall. now right. }
      assert (Hbad : List.filter (redo_bad (fs w)) genes = genes).
      { clear -Hall. induction genes as [|g genes IH]; [reflexivity|].
        cbn [List.filter]. unfold redo_bad at 1, redo_ok.
        rewrite (Hall g) by now left. cbn [andb negb].
        f_equal. apply IH. intros h Hh. apply Hall. now right. }
      rewrite Hok, Hbad, !app_nil_r. now repeat split.
Qed.

Lemma has_contigs_rewrite (f : gmap string node) (gene text : string) (h : string) :
  has_contigs f gene = true ->
  has_contigs (<[contigs_path gene := File text]> f) h = has_contigs f h.
Proof.
  intros Hc. unfold has_contigs, is_file in *.
  destruct (String.string_dec (contigs_path gene) (contigs_path h)) as [E|E].
  - rewrite <- E, lookup_insert_eq.
    now destruct (f !! contigs_path gene) as [[t|names sz]|].
  - now rewrite lookup_insert_ne.
Qed.

(** C2.  For a gene of the redo list whose result file exists, the size
    tested is the one found at the path ["{}/{}_spades/contigs.fasta"]
    itself: with nothing at that path the loop stops with the lookup
    error on it; with something there, the gene is successful exactly
    when that size is positive; and the text of the gene's own result
    file (at another path than the unformatted one) has no part in the
    result. *)
Theorem size_check_uses_unformatted_path (genes_redos : list string)
    (w : World) (gene : string) :
  In gene genes_redos ->
  has_contigs (fs w) gene = true ->
  (size_at (fs w) unformatted_path = None ->
   exists w', redo_loop genes_redos [] [] w =
              Raise (FileNotFoundError unformatted_path) w') /\
  (forall sz : Z, size_at (fs w) unformatted_path = Some sz ->
   exists (spades_successful spades_failed : list string) (w' : World),
     redo_loop genes_redos [] [] w = Ret (spades_successful, spades_failed) w' /\
     if 0 <? sz
     then In gene spades_successful /\ ~ In gene spades_failed
     else In gene spades_failed /\ ~ In gene spades_successful) /\
  (forall text : string, contigs_path gene <> unformatted_path ->
   result_of (redo_loop genes_redos [] []
                (set_fs (<[contigs_path gene := File text]> (fs w)) w)) =
   result_of (redo_loop genes_redos [] [] w)).
Proof.
  intros Hin Hc. split; [|split].
  - intros Hsz.
    destruct (redo_loop_lookup_error genes_redos [] [] w Hsz) as [w' [H _]];
      [now exists gene | now exists w'].
  - intros sz Hsz. rewrite (redo_loop_sized sz genes_redos [] [] w Hsz).
    eexists _, _, _. split; [reflexivity|]. cbn [app].
    assert (Hok : redo_ok (fs w) gene = (0 <? sz)).
    { unfold redo_ok. now rewrite Hc, Hsz. }
    destruct (0 <? sz); split.
    + apply List.filter_In. now split.
    + intros H. apply List.filter_In in H as [_ H].
      unfold redo_bad in H. now rewrite Hok in H.
    + apply List.filter_In. split; [exact Hin|].
      unfold redo_bad. now rewrite Hok.
    + intros H. apply List.filter_In in H as [_ H]. congruence.
  - intros text Hne.
    set (w2 := set_fs (<[contigs_path gene := File text]> (fs w)) w).
    assert (Hsame : forall h, has_contigs (fs w2) h = has_contigs (fs w) h).
    { intros h. apply has_contigs_rewrite, Hc. }
    assert (Hsz2 : size_at (fs w2) unformatted_path = size_at (fs w) unformatted_path).
    { unfold size_at. cbn [w2 set_fs fs]. now rewrite lookup_insert_ne. }
    destruct (size_at (fs w) unformatted_path) as [sz|] eqn:Hsz.
    + rewrite (redo_loop_sized sz genes_redos [] [] w Hsz).
      rewrite (redo_loop_sized sz genes_redos [] [] w2 Hsz2).
      cbn [result_of].
      destruct (filter_ext_redo (fs w) (fs w2) genes_redos) as [-> ->];
        [|reflexivity].
      intros h. unfold redo_ok. now rewrite Hsame, Hsz2, Hsz.
    + destruct (redo_loop_lookup_error genes_redos [] [] w Hsz) as [w' [-> _]];
        [now exists gene|].
      destruct (redo_loop_lookup_error genes_redos [] [] w2 Hsz2) as [w2' [-> _]];
        [exists gene; now rewrite Hsame|].
      reflexivity.
Qed.

(** ** The k-mer pass (lines 72-86) *)

Lemma kmers_of_parse (names : list string) (w : World) :
  kmers_of names w =
  match parse_kmers names with
  | inr ks => Ret ks w
  | inl bad => Raise (ValueError bad) w
  end.
Proof.
  induction names as [|x names IH]; [reflexivity|].
  cbn [kmers_of parse_kmers]. destruct (startswith "K" x); [|exact IH].
  destruct (py_int (tail1 x)) as [k|]; [|reflexivity].
  unfold bind. rewrite IH. now destruct (parse_kmers names).
Qed.

Lemma parse_kmers_length (names : list string) (ks : list Z) :
  parse_kmers names = inr ks -> length ks = length (k_names names).
Proof.
  revert ks; induction names as [|x names IH]; intros ks H.
  - injection H as <-. reflexivity.
  - cbn [parse_kmers k_names] in *. destruct (startswith "K" x); [|now apply IH].
    destruct (py_int (tail1 x)) as [k|]; [|discriminate].
    destruct (parse_kmers names) as [bad|ks']; [discriminate|].
    injection H as <-. cbn [length]. f_equal. now apply IH.
Qed.

Lemma merge_sort_length (ks : list Z) : length (merge_sort Z.le ks) = length ks.
Proof. apply Permutation_length, merge_sort_Permutation. Qed.

Lemma listdir_listing (gene : string) (w : World) :
  listdir (kmer_dir gene) w =
  match listing (fs w) gene with
  | Some names => Ret names w
  | None =>
      match fs w !! kmer_dir gene with
      | Some _ => Raise (NotADirectoryError (kmer_dir gene)) w
      | None => Raise (FileNotFoundError (kmer_dir gene)) w
      end
  end.
Proof.
  unfold listdir, listing.
  now destruct (fs w !! kmer_dir gene) as [[text|names sz]|].
Qed.

(** A list of two or more, sorted: what comes before the last two, the
    last but one, the last. *)
Lemma last_two (l : list Z) :
  (2 <= length l)%nat ->
  exists smaller second largest, l = (smaller ++ [second; largest])%list.
Proof.
  intros Hlen. destruct (rev l) as [|largest [|second smaller]] eqn:E.
  - apply (f_equal (@length Z)) in E. rewrite length_rev in E. simpl in E. lia.
  - apply (f_equal (@length Z)) in E. rewrite length_rev in E. simpl in E. lia.
  - exists (rev smaller), second, largest.
    apply (f_equal (@rev Z)) in E. rewrite rev_involutive in E. rewrite E.
    simpl. now rewrite <- app_assoc.
Qed.

Lemma redo_kmers_last (smaller : list Z) (second largest : Z) (ks : list Z) :
  merge_sort Z.le ks = (smaller ++ [second; largest])%list ->
  redo_kmers_of ks = map str_Z (smaller ++ [second]) /\
  last (redo_kmers_of ks) = Some (str_Z second).
Proof.
  intros E. unfold redo_kmers_of. rewrite E.
  change (smaller ++ [second; largest])%list
    with (smaller ++ ([second] ++ [largest]))%list.
  rewrite app_assoc, removelast_last. split; [reflexivity|].
  rewrite map_app. apply last_snoc.
Qed.

Lemma append_file_step (p text : string) {B : Type} (k : M B) (w : World) :
  (append_file p text ;; k) w =
  k (set_fs (<[p := File (text_at (fs w) p ++ text)]> (fs w)) w).
Proof.
  unfold bind, append_file, text_at.
  now destruct (fs w !! p) as [[old|names sz]|].
Qed.

(** One turn of the loop for a gene whose assembly directory can be
    listed and whose ["K"] names are all numbers. *)
Lemma kmer_loop_step (cov_cutoff : Z) (gene : string) (rest duds redos : list string)
    (w : World) (names : list string) (ks : list Z) :
  listing (fs w) gene = Some names ->
  parse_kmers names = inr ks ->
  kmer_loop cov_cutoff (gene :: rest) duds redos w =
  if is_dud (fs w) gene then
    (write_stderr ("WARNING: All Kmers failed for " ++ gene ++ "!" ++ nl) ;;
     kmer_loop cov_cutoff rest (duds ++ [gene]) redos) w
  else
    (append_file redo_commands_path (redo_line cov_cutoff (fs w) gene) ;;
     kmer_loop cov_cutoff rest duds (redos ++ [gene])) w.
Proof.
  intros Hl Hp. cbn [kmer_loop]. unfold bind at 1.
  change (path_join gene (gene ++ "_spades")) with (kmer_dir gene).
  rewrite listdir_listing, Hl. unfold bind at 1. rewrite kmers_of_parse, Hp.
  rewrite merge_sort_length, (parse_kmers_length _ _ Hp).
  unfold is_dud, k_count. rewrite Hl.
  destruct (length (k_names names) <? 2)%nat eqn:Hlen; [reflexivity|].
  apply Nat.ltb_ge in Hlen.
  destruct (last_two (merge_sort Z.le ks)) as (smaller & second & largest & E).
  { now rewrite merge_sort_length, (parse_kmers_length _ _ Hp). }
  destruct (redo_kmers_last _ _ _ _ E) as [_ Hlast].
  unfold redo_line. rewrite Hl, Hp.
  fold (redo_kmers_of ks). rewrite Hlast. reflexivity.
Qed.


Lemma path_join_suffix (a b : string) : exists x, path_join a b = x ++ b.
Proof.
  unfold path_join. destruct (startswith "/" b); [now exists ""|].
  destruct (String.eqb a "" || endswith_slash a)%bool; [now exists a|].
  exists (a ++ "/"). now rewrite append_assoc.
Qed.

Lemma kmer_dir_not_commands (gene : string) : kmer_dir gene <> redo_commands_path.
Proof.
  unfold kmer_dir. destruct (path_join_suffix gene (gene ++ "_spades")) as [x ->].
  intros H. rewrite <- !append_assoc in H.
  change redo_commands_path with ("redo_spades_comma" ++ "nds.txt") in H.
  apply append_inj_suffix in H as [_ H]; [discriminate | reflexivity].
Qed.

Lemma listing_agree (f f' : gmap string node) (gene : string) :
  (forall p, p <> redo_commands_path -> f' !! p = f !! p) ->
  listing f' gene = listing f gene.
Proof.
  intros H. unfold listing. now rewrite (H _ (kmer_dir_not_commands gene)).
Qed.

Lemma kmer_loop_unlisted (cov_cutoff : Z) (gene : string)
    (rest duds redos : list string) (w : World) :
  listing (fs w) gene = None ->
  exists e, kmer_loop cov_cutoff (gene :: rest) duds redos w = Raise e w.
Proof.
  intros Hl. cbn [kmer_loop]. unfold bind at 1.
  change (path_join gene (gene ++ "_spades")) with (kmer_dir gene).
  rewrite listdir_listing, Hl. destruct (fs w !! kmer_dir gene); eauto.
Qed.

Lemma kmer_loop_unparsed (cov_cutoff : Z) (gene : string)
    (rest duds redos : list string) (w : World) (names : list string) (bad : string) :
  listing (fs w) gene = Some names ->
  parse_kmers names = inl bad ->
  kmer_loop cov_cutoff (gene :: rest) duds redos w = Raise (ValueError bad) w.
Proof.
  intros Hl Hp. cbn [kmer_loop]. unfold bind at 1.
  change (path_join gene (gene ++ "_spades")) with (kmer_dir gene).
  rewrite listdir_listing, Hl. unfold bind at 1. now rewrite kmers_of_parse, Hp.
Qed.

(** Whenever the loop returns: every assembly directory could be listed,
    its ["K"] names were numbers, the duds are the genes with fewer than
    two ["K"] names, the others have their line in the command file, in
    order, and no other path has changed. *)
Lemma kmer_loop_returns (cov_cutoff : Z) (f0 : gmap string node) (genes : list string) :
  forall (duds redos duds' redos' : list string) (w w' : World),
    (forall p, p <> redo_commands_path -> fs w !! p = f0 !! p) ->
    kmer_loop cov_cutoff genes duds redos w = Ret (duds', redos') w' ->
    duds' = (duds ++ List.filter (is_dud f0) genes)%list /\
    redos' = (redos ++ List.filter (not_dud f0) genes)%list /\
    (forall p, p <> redo_commands_path -> fs w' !! p = f0 !! p) /\
    text_at (fs w') redo_commands_path =
      text_at (fs w) redo_commands_path ++
      String.concat "" (map (redo_line cov_cutoff f0) (List.filter (not_dud f0) genes)) /\
    calls w' = calls w /\ copies w' = copies w /\
    (forall g, In g genes ->
       exists names ks, listing f0 g = Some names /\ parse_kmers names = inr ks).
Proof.
  induction genes as [|g genes IH]; intros duds redos duds' redos' w w' Hagree H.
  - cbn in H. injection H as <- <- <-. rewrite !app_nil_r.
    cbn [List.filter map String.concat]. rewrite append_nil_r.
    repeat split; try assumption. intros g [].
  - pose proof (listing_agree f0 (fs w) g Hagree) as Hlist.
    destruct (listing (fs w) g) as [names|] eqn:Hl.
    2:{ destruct (kmer_loop_unlisted cov_cutoff g genes duds redos w Hl) as [e He].
        congruence. }
    destruct (parse_kmers names) as [bad|ks] eqn:Hp.
    1:{ rewrite (kmer_loop_unparsed _ _ _ _ _ _ _ _ Hl Hp) in H. discriminate. }
    rewrite (kmer_loop_step _ _ _ _ _ _ _ _ Hl Hp) in H.
    assert (Hdud : is_dud (fs w) g = is_dud f0 g).
    { unfold is_dud, k_count. now rewrite Hl, <- Hlist. }
    assert (Hline : redo_line cov_cutoff (fs w) g = redo_line cov_cutoff f0 g).
    { unfold redo_line. now rewrite Hl, <- Hlist. }
    rewrite Hdud, Hline in H. cbn [List.filter].
    assert (Hn : not_dud f0 g = negb (is_dud f0 g)) by reflexivity.
    rewrite !Hn. clear Hn.
    assert (Hhere : exists names ks,
              listing f0 g = Some names /\ parse_kmers names = inr ks).
    { exists names, ks. now rewrite <- Hlist. }
    destruct (is_dud f0 g); cbn [negb].
    + rewrite write_stderr_step in H. apply IH in H; [|exact Hagree].
      destruct H as (-> & -> & H1 & H2 & H3 & H4 & Hall).
      cbn [fs stderr calls copies] in *.
      rewrite <- app_assoc. repeat split; try assumption.
      intros h [<-|Hh]; [exact Hhere | now apply Hall].
    + rewrite append_file_step in H. apply IH in H.
      2:{ cbn [fs set_fs]. intros p Hne.
          rewrite lookup_insert_ne by congruence. now apply Hagree. }
      destruct H as (-> & -> & H1 & H2 & H3 & H4 & Hall).
      cbn [fs stderr calls copies set_fs] in *.
      rewrite <- app_assoc. repeat split; try assumption.
      * rewrite H2. unfold text_at at 1. cbn [fs set_fs].
        rewrite lookup_insert_eq. cbn [map String.concat].
        rewrite append_assoc. f_equal.
        destruct (map (redo_line cov_cutoff f0) (List.filter (not_dud f0) genes));
          [now rewrite append_nil_r | reflexivity].
      * intros h [<-|Hh]; [exact Hhere | now apply Hall].
Qed.

(** ** The redo pass *)

Section RedoPass.

Variable run : string -> gmap string node -> Z * gmap string node.

(** [rerun_spades_lists] cut at the end of the k-mer pass. *)
Lemma rerun_spades_lists_unfold (genelist : string) (cov_cutoff : Z)
    (cpu : option Z) (paired : bool) (w : World) :
  rerun_spades_lists run genelist cov_cutoff cpu paired w =
  match read_genes genelist w with
  | Raise e w0 => Raise e w0
  | Ret genes _ =>
      match kmer_loop cov_cutoff genes [] [] (commands_opened w) with
      | Raise e w1 => Raise e w1
      | Ret (duds, redos) w1 =>
          let r := run (redo_spades_cmd cpu) (redo_start w1 duds) in
          match
            redo_loop redos [] []
              (mkWorld (snd r)
                 (stderr w1 ++
                  ["Re-running SPAdes for " ++ str_Z (Z.of_nat (length redos)) ++
                   " genes" ++ nl; redo_spades_cmd cpu ++ nl] ++
                  warning_of (fst r))
                 (calls w1 ++ [redo_spades_cmd cpu]) (copies w1))
          with
          | Raise e w2 => Raise e w2
          | Ret (succ, failed) w2 => Ret (succ, failed, duds) w2
          end
      end
  end.
Proof.
  unfold rerun_spades_lists, commands_opened, redo_start, redo_commands_path.
  unfold bind at 1.
  destruct (read_genes genelist w) as [genes w0|e w0] eqn:Hread; [|reflexivity].
  assert (Hw : w0 = w).
  { unfold read_genes in Hread.
    destruct (fs w !! genelist) as [[text|names sz]|]; congruence. }
  rewrite Hw. unfold bind at 1. unfold write_file at 1. unfold bind at 1.
  destruct (kmer_loop cov_cutoff genes [] [] _) as [[duds redos] w1|e w1];
    [|reflexivity].
  cbn [fst snd]. unfold bind, write_file, write_stderr, call, warn_exitcode, warning_of.
  cbn [fs stderr calls copies set_fs].
  destruct (fst (run (redo_spades_cmd cpu) _) =? 0);
    unfold ret, write_stderr; cbn [fs stderr calls copies];
    rewrite <- ?app_assoc; cbn [app];
    destruct (redo_loop redos [] [] _) as [[succ failed] w2|e w2]; reflexivity.
Qed.

Lemma read_genes_ret (genelist : string) (w w0 : World) (genes : list string) :
  read_genes genelist w = Ret genes w0 ->
  exists text, fs w !! genelist = Some (File text) /\ genes = gene_names text.
Proof.
  unfold read_genes.
  destruct (fs w !! genelist) as [[text|names sz]|]; try discriminate.
  intros H. injection H as <- _. now exists text.
Qed.

Lemma commands_opened_agree (w : World) (p : string) :
  p <> redo_commands_path -> fs (commands_opened w) !! p = fs w !! p.
Proof.
  intros Hne. unfold commands_opened. cbn [fs set_fs].
  now rewrite lookup_insert_ne by congruence.
Qed.



End RedoPass.

(** ** The exit code of the external run *)











Section ExitCode.

Variable run : string -> gmap string node -> Z * gmap string node.

Lemma spades_initial_of_lists (r : string -> gmap string node -> Z * gmap string node)
    (genelist : string) (cov_cutoff : Z) (cpu : option Z) (paired : bool)
    (kvals : option (list string)) (w : World) :
  spades_initial r genelist cov_cutoff cpu paired kvals w =
  match spades_initial_lists r genelist cov_cutoff cpu paired kvals w with
  | Ret lists w' => Ret (snd lists) w'
  | Raise e w' => Raise e w'
  end.
Proof. reflexivity. Qed.

Lemma rerun_spades_of_lists (r : string -> gmap string node -> Z * gmap string node)
    (genelist : string) (cov_cutoff : Z) (cpu : option Z) (paired : bool)
    (w : World) :
  rerun_spades r genelist cov_cutoff cpu paired w =
  match rerun_spades_lists r genelist cov_cutoff cpu paired w with
  | Ret lists w' => Ret (snd (fst lists), snd lists) w'
  | Raise e w' => Raise e w'
  end.
Proof. reflexivity. Qed.

Lemma read_genes_step (p : string) {B : Type} (k : list string -> M B) (w : World) :
  (genes <- read_genes p ;; k genes) w =
  match fs w !! p with
  | Some (File text) => k (gene_names text) w
  | Some (Dir _ _) => Raise (IsADirectoryError p) w
  | None => Raise (FileNotFoundError p) w
  end.
Proof.
  unfold bind, read_genes. now destruct (fs w !! p) as [[text|names sz]|].
Qed.







End ExitCode.

(** ** The commands of a run *)

Lemma emits_silent {A : Type} (P : string -> Prop) (m : M A) :
  (forall w, calls (world_of (m w)) = calls w) -> emits P m.
Proof. intros H w c Hc. left. now rewrite <- H. Qed.

Lemma emits_bind {A B : Type} (P : string -> Prop) (c : M A) (k : A -> M B) :
  emits P c -> (forall a, emits P (k a)) -> emits P (bind c k).
Proof.
  intros Hc Hk w x Hx. unfold bind in Hx. specialize (Hc w x).
  destruct (c w) as [a w'|e w']; cbn [world_of] in Hc.
  - destruct (Hk a w' x Hx) as [H|H]; [now apply Hc | now right].
  - now apply Hc.
Qed.

Lemma emits_ret {A : Type} (P : string -> Prop) (a : A) : emits P (ret a).
Proof. now apply emits_silent. Qed.

Lemma emits_raise {A : Type} (P : string -> Prop) (e : exn) : emits P (@raise A e).
Proof. now apply emits_silent. Qed.

Lemma emits_isfile (P : string -> Prop) (p : string) : emits P (isfile p).
Proof. now apply emits_silent. Qed.

Lemma emits_remove (P : string -> Prop) (p : string) : emits P (remove p).
Proof.
  apply emits_silent. intros w. unfold remove.
  now destruct (fs w !! p) as [[text|names sz]|].
Qed.

Lemma emits_read_genes (P : string -> Prop) (p : string) : emits P (read_genes p).
Proof.
  apply emits_silent. intros w. unfold read_genes.
  now destruct (fs w !! p) as [[text|names sz]|].
Qed.

Lemma emits_write_file (P : string -> Prop) (p text : string) :
  emits P (write_file p text).
Proof. now apply emits_silent. Qed.

Lemma emits_append_file (P : string -> Prop) (p text : string) :
  emits P (append_file p text).
Proof.
  apply emits_silent. intros w. unfold append_file.
  now destruct (fs w !! p) as [[old|names sz]|].
Qed.

Lemma emits_listdir (P : string -> Prop) (p : string) : emits P (listdir p).
Proof.
  apply emits_silent. intros w. unfold listdir.
  now destruct (fs w !! p) as [[text|names sz]|].
Qed.

Lemma emits_stat_size (P : string -> Prop) (p : string) : emits P (stat_size p).
Proof.
  apply emits_silent. intros w. unfold stat_size.
  now destruct (fs w !! p) as [[text|names sz]|].
Qed.

Lemma emits_copy (P : string -> Prop) (src dst : string) : emits P (copy src dst).
Proof.
  apply emits_silent. intros w. unfold copy.
  now destruct (fs w !! src) as [[text|names sz]|].
Qed.

Lemma emits_write_stderr (P : string -> Prop) (text : string) :
  emits P (write_stderr text).
Proof. now apply emits_silent. Qed.

Lemma emits_kmers_of (P : string -> Prop) (names : list string) :
  emits P (kmers_of names).
Proof.
  apply emits_silent. intros w. rewrite kmers_of_parse.
  now destruct (parse_kmers names).
Qed.

Lemma emits_warn_exitcode (P : string -> Prop) (exitcode : Z) :
  emits P (warn_exitcode exitcode).
Proof. apply emits_silent. intros w. unfold warn_exitcode. now destruct (exitcode =? 0). Qed.

Lemma emits_call (run : string -> gmap string node -> Z * gmap string node)
    (P : string -> Prop) (cmd : string) :
  P cmd -> emits P (call run cmd).
Proof.
  intros Hp w c Hc. unfold call in Hc. cbn in Hc.
  apply in_app_or in Hc as [Hc|[<-|[]]]; [now left | now right].
Qed.

Lemma emits_initial_loop (P : string -> Prop) (genes : list string) :
  forall succ failed, emits P (initial_loop genes succ failed).
Proof.
  induction genes as [|g genes IH]; intros succ failed; cbn [initial_loop].
  - apply emits_ret.
  - apply emits_bind; [apply emits_isfile|]. intros [|].
    + apply emits_bind; [apply emits_copy|]. intros _. apply IH.
    + apply emits_bind; [apply emits_write_stderr|]. intros _. apply IH.
Qed.

Lemma emits_redo_loop (P : string -> Prop) (genes : list string) :
  forall succ failed, emits P (redo_loop genes succ failed).
Proof.
  induction genes as [|g genes IH]; intros succ failed; cbn [redo_loop].
  - apply emits_ret.
  - apply emits_bind; [apply emits_isfile|]. intros found.
    apply emits_bind.
    + destruct found; [|apply emits_ret].
      apply emits_bind; [apply emits_stat_size|]. intros size.
      destruct (0 <? size); [|apply emits_ret].
      apply emits_bind; [apply emits_copy|]. intros _. apply emits_ret.
    + intros [|]; [|apply IH].
      apply emits_bind; [apply emits_write_stderr|]. intros _. apply IH.
Qed.

Lemma emits_kmer_loop (P : string -> Prop) (cov_cutoff : Z) (genes : list string) :
  forall duds redos, emits P (kmer_loop cov_cutoff genes duds redos).
Proof.
  induction genes as [|g genes IH]; intros duds redos; cbn [kmer_loop].
  - apply emits_ret.
  - apply emits_bind; [apply emits_listdir|]. intros names.
    apply emits_bind; [apply emits_kmers_of|]. intros parsed.
    destruct (length (merge_sort Z.le parsed) <? 2)%nat.
    + apply emits_bind; [apply emits_write_stderr|]. intros _. apply IH.
    + destruct (last _); [|apply emits_raise].
      apply emits_bind; [apply emits_append_file|]. intros _. apply IH.
Qed.

(** ** The top level *)

Section Main.

Variable run : string -> gmap string node -> Z * gmap string node.

Lemma emits_spades_initial (P : string -> Prop) (genelist : string)
    (cov_cutoff : Z) (cpu : option Z) (paired : bool) (kvals : option (list string)) :
  P (make_spades_cmd genelist cov_cutoff cpu paired kvals) ->
  emits P (spades_initial run genelist cov_cutoff cpu paired kvals).
Proof.
  intros Hp. unfold spades_initial, spades_initial_lists.
  apply emits_bind; [|intros lists; apply emits_ret].
  apply emits_bind; [apply emits_isfile|]. intros stale.
  apply emits_bind; [destruct stale; [apply emits_remove | apply emits_ret]|].
  intros _. apply emits_bind; [apply emits_read_genes|]. intros genes.
  apply emits_bind; [apply emits_write_stderr|]. intros _.
  apply emits_bind; [apply emits_write_stderr|]. intros _.
  apply emits_bind; [now apply emits_call|]. intros exitcode.
  apply emits_bind; [apply emits_warn_exitcode|]. intros _.
  apply emits_initial_loop.
Qed.

Lemma emits_rerun_spades (P : string -> Prop) (genelist : string)
    (cov_cutoff : Z) (cpu : option Z) (paired : bool) :
  P (redo_spades_cmd cpu) ->
  emits P (rerun_spades run genelist cov_cutoff cpu paired).
Proof.
  intros Hp. unfold rerun_spades, rerun_spades_lists.
  apply emits_bind; [|intros lists; apply emits_ret].
  apply emits_bind; [apply emits_read_genes|]. intros genes.
  apply emits_bind; [apply emits_write_file|]. intros _.
  apply emits_bind; [apply emits_kmer_loop|]. intros first.
  apply emits_bind; [apply emits_write_file|]. intros _.
  apply emits_bind; [apply emits_write_stderr|]. intros _.
  apply emits_bind; [apply emits_write_stderr|]. intros _.
  apply emits_bind; [now apply emits_call|]. intros exitcode.
  apply emits_bind; [apply emits_warn_exitcode|]. intros _.
  apply emits_bind; [apply emits_redo_loop|]. intros second. apply emits_ret.
Qed.

(** The branch [main] takes on line 136. *)
Lemma main_redos_only (args : Args) (w : World) :
  is_file (fs w) "failed_spades.txt" = true ->
  redos_only args = true ->
  main run args w =
  (spades_failed <- rerun_spades run "failed_spades.txt" 8 None true ;; ret tt) w.
Proof.
  intros Hfile Hflag. unfold main. unfold bind at 1. unfold isfile.
  now rewrite Hfile, Hflag.
Qed.

Lemma main_normal (args : Args) (w : World) :
  is_file (fs w) "failed_spades.txt" && redos_only args = false ->
  main run args w =
  (spades_failed <- spades_initial run (genelist args) (cov_cutoff args)
                      (Some (cpu args)) true (kvals args) ;;
   if (0 <? length spades_failed)%nat then
     write_file "failed_spades.txt" (join nl spades_failed) ;;
     redo <- rerun_spades run "failed_spades.txt" (cov_cutoff args) None true ;;
     if (length (fst redo) =? 0)%nat then
       write_stderr ("All redos completed successfully!" ++ nl)
     else raise (SystemExit 1)
   else ret tt) w.
Proof.
  intros Hcond. unfold main. unfold bind at 1. unfold isfile. now rewrite Hcond.
Qed.

(** C10.  Every command [main] gives to the shell is the command of the
    initial pass or the redo command without [-j], which is the one
    [rerun_spades] builds for [cpu=None]: [--cpu] never reaches the redo
    pass.  In the redos-only branch [main] is the redo pass with
    [cov_cutoff=8] and [cpu=None], so nothing else of the command line
    (the gene list, [--cpu], [--cov_cutoff], [--kvals]) changes what it
    does. *)
Theorem main_redo_ignores_cpu (args : Args) (w : World) :
  (forall c : string,
     In c (calls (world_of (main run args w))) ->
     In c (calls w) \/
     c = make_spades_cmd (genelist args) (cov_cutoff args) (Some (cpu args)) true
           (kvals args) \/
     c = redo_cmd_unlimited) /\
  redo_spades_cmd None = redo_cmd_unlimited /\
  contains "-j" redo_cmd_unlimited = false /\
  (is_file (fs w) "failed_spades.txt" = true -> redos_only args = true ->
   main run args w =
     (spades_failed <- rerun_spades run "failed_spades.txt" 8 None true ;; ret tt) w /\
   forall (genelist' : string) (cpu' cov_cutoff' : Z) (kvals' : option (list string)),
     main run (mkArgs genelist' cpu' cov_cutoff' kvals' true) w = main run args w).
Proof.
  split; [|split; [reflexivity|split; [reflexivity|]]].
  - set (P := fun c : string =>
                c = make_spades_cmd (genelist args) (cov_cutoff args)
                      (Some (cpu args)) true (kvals args) \/
                c = redo_cmd_unlimited).
    assert (H : emits P (main run args)).
    { unfold main. apply emits_bind; [apply emits_isfile|]. intros have_failed.
      destruct (have_failed && redos_only args).
      - apply emits_bind; [|intros _; apply emits_ret].
        apply emits_rerun_spades. now right.
      - apply emits_bind; [apply emits_spades_initial; now left|].
        intros spades_failed. destruct (0 <? length spades_failed)%nat;
          [|apply emits_ret].
        apply emits_bind; [apply emits_write_file|]. intros _.
        apply emits_bind; [apply emits_rerun_spades; now right|]. intros redo.
        destruct (length (fst redo) =? 0)%nat;
          [apply emits_write_stderr | apply emits_raise]. }
    intros c Hc. apply (H w c Hc).
  - intros Hfile Hflag. split; [now apply main_redos_only|].
    intros genelist' cpu' cov_cutoff' kvals'.
    now rewrite !main_redos_only.
Qed.


End Main.

(** ** The theorems on the small directories *)



Lemma size_check_uses_unformatted_path_witness :
  (exists w', redo_loop ["g2"] [] [] lookup_world =
              Raise (FileNotFoundError "{}/{}_spades/contigs.fasta") w') /\
  (exists succ failed w', redo_loop ["g2"] [] [] sized_world = Ret (succ, failed) w' /\
                          In "g2" succ /\ ~ In "g2" failed) /\
  result_of (redo_loop ["g2"] [] []
               (set_fs (<[contigs_path "g2" := File "ACGTACGT"]> (fs sized_world))
                       sized_world)) =
  result_of (redo_loop ["g2"] [] [] sized_world).
Proof.
  assert (Hin : In "g2" ["g2"]) by (simpl; tauto).
  split; [|split].
  - destruct (size_check_uses_unformatted_path ["g2"] lookup_world "g2" Hin)
      as [Hraise _]; [vm_compute; reflexivity|].
    apply Hraise. vm_compute; reflexivity.
  - destruct (size_check_uses_unformatted_path ["g2"] sized_world "g2" Hin)
      as [_ [Hsized _]]; [vm_compute; reflexivity|].
    destruct (Hsized 4) as (succ & failed & w' & Hloop & Hsplit);
      [vm_compute; reflexivity|].
    exists succ, failed, w'. split; [exact Hloop | exact Hsplit].
  - destruct (size_check_uses_unformatted_path ["g2"] sized_world "g2" Hin)
      as [_ [_ Hown]]; [vm_compute; reflexivity|].
    apply Hown. vm_compute. discriminate.
Defined.



Lemma make_spades_cmd_cpu_flag_witness :
  contains "-j" (make_spades_cmd "genes.txt" 8 (Some 0) true None) = false /\
  contains "-j 4" (make_spades_cmd "genes.txt" 8 (Some 4) true None) = true.
Proof.
  destruct (make_spades_cmd_cpu_flag "genes.txt" 8 true None) as [Hunset Hset].
  split.
  - destruct (Hunset (Some 0)) as [_ H]; [now right|]. rewrite H. reflexivity.
  - destruct (Hset 4) as [_ H]; [lia|]. exact H.
Defined.




Lemma main_redo_ignores_cpu_witness :
  main demo_run (mkArgs "other.txt" 16 99 (Some ["21"]) true) redo_world =
  main demo_run redos_args redo_world.
Proof.
  destruct (main_redo_ignores_cpu demo_run redos_args redo_world)
    as (_ & _ & _ & Hbranch).
  destruct Hbranch as [_ Hsame]; [vm_compute; reflexivity | reflexivity |].
  apply Hsame.
Defined.

(** * Further properties *)

(** ** Reading a list of genes *)






















(** ** The order and number of the commands *)

Lemma runs_within_silent {A : Type} (cmds : list string) (m : M A) :
  (forall w, calls (world_of (m w)) = calls w) -> runs_within cmds m.
Proof.
  intros H w. exists []. rewrite app_nil_r. split; [apply H | apply sublist_nil_l].
Qed.

Lemma runs_within_bind {A B : Type} (c1 c2 : list string) (c : M A) (k : A -> M B) :
  runs_within c1 c -> (forall a, runs_within c2 (k a)) ->
  runs_within (c1 ++ c2) (bind c k).
Proof.
  intros Hc Hk w. unfold bind. destruct (Hc w) as (l1 & H1 & S1).
  destruct (c w) as [a w1|e w1]; cbn [world_of] in H1.
  - destruct (Hk a w1) as (l2 & H2 & S2). exists (l1 ++ l2)%list.
    rewrite H2, H1, app_assoc. split; [reflexivity | now apply sublist_app].
  - exists l1. cbn [world_of]. split; [exact H1 | now apply sublist_inserts_r].
Qed.


Lemma runs_within_then {A B : Type} (cmds : list string) (c : M A) (k : A -> M B) :
  runs_within [] c -> (forall a, runs_within cmds (k a)) ->
  runs_within cmds (bind c k).
Proof. intros Hc Hk. now apply (runs_within_bind [] cmds). Qed.

Lemma runs_within_call (run : string -> gmap string node -> Z * gmap string node)
    (cmd : string) :
  runs_within [cmd] (call run cmd).
Proof. intros w. exists [cmd]. split; reflexivity. Qed.

Lemma runs_within_initial_loop (genes : list string) :
  forall succ failed, runs_within [] (initial_loop genes succ failed).
Proof.
  induction genes as [|g genes IH]; intros succ failed; cbn [initial_loop].
  - now apply runs_within_silent.
  - apply runs_within_then; [now apply runs_within_silent|]. intros [|].
    + apply runs_within_then; [|intros _; apply IH].
      apply runs_within_silent. intros w. unfold copy.
      now destruct (fs w !! contigs_path g) as [[text|names sz]|].
    + apply runs_within_then; [now apply runs_within_silent | intros _; apply IH].
Qed.

Lemma runs_within_redo_loop (genes : list string) :
  forall succ failed, runs_within [] (redo_loop genes succ failed).
Proof.
  induction genes as [|g genes IH]; intros succ failed; cbn [redo_loop].
  - now apply runs_within_silent.
  - apply runs_within_then; [now apply runs_within_silent|]. intros found.
    apply runs_within_then.
    + destruct found; [|now apply runs_within_silent].
      apply runs_within_then.
      { apply runs_within_silent. intros w. rewrite stat_size_at.
        now destruct (size_at (fs w) unformatted_path). }
      intros size. destruct (0 <? size); [|now apply runs_within_silent].
      apply runs_within_then; [|intros _; now apply runs_within_silent].
      apply runs_within_silent. intros w. unfold copy.
      now destruct (fs w !! contigs_path g) as [[text|names sz]|].
    + intros [|]; [|apply IH].
      apply runs_within_then; [now apply runs_within_silent | intros _; apply IH].
Qed.

Lemma runs_within_kmer_loop (cov_cutoff : Z) (genes : list string) :
  forall duds redos, runs_within [] (kmer_loop cov_cutoff genes duds redos).
Proof.
  induction genes as [|g genes IH]; intros duds redos; cbn [kmer_loop].
  - now apply runs_within_silent.
  - apply runs_within_then.
    { apply runs_within_silent. intros w. unfold listdir.
      now destruct (fs w !! _) as [[text|names sz]|]. }
    intros names. apply runs_within_then.
    { apply runs_within_silent. intros w. rewrite kmers_of_parse.
      now destruct (parse_kmers names). }
    intros parsed. destruct (length (merge_sort Z.le parsed) <? 2)%nat.
    + apply runs_within_then; [now apply runs_within_silent | intros _; apply IH].
    + destruct (last _); [|now apply runs_within_silent].
      apply runs_within_then; [|intros _; apply IH].
      apply runs_within_silent. intros w. unfold append_file.
      now destruct (fs w !! _) as [[old|names' sz]|].
Qed.

Section Commands.

Variable run : string -> gmap string node -> Z * gmap string node.

Lemma runs_within_spades_initial (genelist : string) (cov_cutoff : Z)
    (cpu : option Z) (paired : bool) (kvals : option (list string)) :
  runs_within [make_spades_cmd genelist cov_cutoff cpu paired kvals]
    (spades_initial run genelist cov_cutoff cpu paired kvals).
Proof.
  unfold spades_initial, spades_initial_lists.
  apply (runs_within_bind [_] []); [|intros lists; now apply runs_within_silent].
  apply runs_within_then; [now apply runs_within_silent|]. intros stale.
  apply runs_within_then.
  { destruct stale; apply runs_within_silent; [|reflexivity].
    intros w. unfold remove. now destruct (fs w !! _) as [[text|names sz]|]. }
  intros _. apply runs_within_then.
  { apply runs_within_silent. intros w. unfold read_genes.
    now destruct (fs w !! genelist) as [[text|names sz]|]. }
  intros genes.
  apply runs_within_then; [now apply runs_within_silent|]. intros _.
  apply runs_within_then; [now apply runs_within_silent|]. intros _.
  apply (runs_within_bind [_] []); [apply runs_within_call|]. intros exitcode.
  apply runs_within_then; [|intros _; apply runs_within_initial_loop].
  apply runs_within_silent. intros w. unfold warn_exitcode.
  now destruct (exitcode =? 0).
Qed.

Lemma runs_within_rerun_spades (genelist : string) (cov_cutoff : Z)
    (cpu : option Z) (paired : bool) :
  runs_within [redo_spades_cmd cpu]
    (rerun_spades run genelist cov_cutoff cpu paired).
Proof.
  unfold rerun_spades, rerun_spades_lists.
  apply (runs_within_bind [_] []); [|intros lists; now apply runs_within_silent].
  apply runs_within_then.
  { apply runs_within_silent. intros w. unfold read_genes.
    now destruct (fs w !! genelist) as [[text|names sz]|]. }
  intros genes.
  apply runs_within_then; [now apply runs_within_silent|]. intros _.
  apply runs_within_then; [apply runs_within_kmer_loop|]. intros first.
  apply runs_within_then; [now apply runs_within_silent|]. intros _.
  apply runs_within_then; [now apply runs_within_silent|]. intros _.
  apply runs_within_then; [now apply runs_within_silent|]. intros _.
  apply (runs_within_bind [_] []); [apply runs_within_call|]. intros exitcode.
  apply runs_within_then.
  { apply runs_within_silent. intros w. unfold warn_exitcode.
    now destruct (exitcode =? 0). }
  intros _. apply runs_within_then; [apply runs_within_redo_loop|].
  intros second. now apply runs_within_silent.
Qed.

(** X1.  In one run [main] gives the shell at most two commands: the
    command of the initial pass at most once, then the redo command
    without [-j] at most once.  There is no second initial pass and no
    second redo pass, whatever the directory and the external run. *)
Theorem main_runs_two_commands (args : Args) (w : World) :
  exists l : list string,
    calls (world_of (main run args w)) = (calls w ++ l)%list /\
    sublist l [make_spades_cmd (genelist args) (cov_cutoff args) (Some (cpu args))
                 true (kvals args);
               redo_cmd_unlimited].
Proof.
  assert (H : runs_within
                [make_spades_cmd (genelist args) (cov_cutoff args) (Some (cpu args))
                   true (kvals args); redo_cmd_unlimited] (main run args)).
  { unfold main. apply runs_within_then; [now apply runs_within_silent|].
    intros have_failed. destruct (have_failed && redos_only args).
    - apply (runs_within_bind [_; _] []); [|intros _; now apply runs_within_silent].
      intros w0. destruct (runs_within_rerun_spades "failed_spades.txt" 8 None true w0)
        as (l & Hl & S).
      exists l. split; [exact Hl|]. now apply (sublist_inserts_l [_]).
    - apply (runs_within_bind [_] [_]); [apply runs_within_spades_initial|].
      intros spades_failed. destruct (0 <? length spades_failed)%nat;
        [|now apply runs_within_silent].
      apply runs_within_then; [now apply runs_within_silent|]. intros _.
      apply (runs_within_bind [_] []); [apply runs_within_rerun_spades|].
      intros redo. destruct (length (fst redo) =? 0)%nat;
        now apply runs_within_silent. }
  apply H.
Qed.

End Commands.

(** ** The list of failures, written and read back *)




(** ** The four branches of the command builder *)

Lemma make_spades_cmd_parts (genelist : string) (cov_cutoff : Z)
    (cpu : option Z) (paired : bool) (kvals : option (list string)) :
  make_spades_cmd genelist cov_cutoff cpu paired kvals =
  "time parallel " ++
  match cpu_set cpu with Some n => "-j " ++ str_Z n ++ " " | None => "" end ++
  "--eta spades.py --only-assembler" ++
  match kvals_set kvals with Some ks => " -k " ++ ks | None => "" end ++
  " --threads 1 --cov-cutoff " ++ str_Z cov_cutoff ++ " " ++
  (if paired then "--12" else "-s") ++
  " {}/{}_interleaved.fasta -o {}/{}_spades :::: " ++ genelist ++ " > spades.log".
Proof.
  unfold make_spades_cmd.
  destruct (cpu_set cpu) as [n|], (kvals_set kvals) as [ks|];
    rewrite ?append_assoc; reflexivity.
Qed.

(** X4.  The four format strings of lines 22-29 are one command with
    two optional parts: ["-j n "] when [cpu] is set and not 0, and
    [" -k k1,k2,..."] when [kvals] is set and its joined text is not
    empty.  The rest (the assembler options, the coverage cutoff, the
    read flag, the interleaved input, the output directory, the gene list
    and the log) is the same in all four. *)
Theorem make_spades_cmd_one_shape (genelist : string) (cov_cutoff : Z)
    (cpu : option Z) (paired : bool) (kvals : option (list string)) :
  exists (jobs ks : string),
    (jobs = match cpu with
            | Some n => if n =? 0 then "" else "-j " ++ str_Z n ++ " "
            | None => ""
            end) /\
    (ks = match kvals with
          | Some l => if String.eqb (join "," l) "" then "" else " -k " ++ join "," l
          | None => ""
          end) /\
    make_spades_cmd genelist cov_cutoff cpu paired kvals =
    "time parallel " ++ jobs ++ "--eta spades.py --only-assembler" ++ ks ++
    " --threads 1 --cov-cutoff " ++ str_Z cov_cutoff ++ " " ++
    (if paired then "--12" else "-s") ++
    " {}/{}_interleaved.fasta -o {}/{}_spades :::: " ++ genelist ++ " > spades.log".
Proof.
  eexists _, _. split; [reflexivity|]. split; [reflexivity|].
  rewrite make_spades_cmd_parts. f_equal. f_equal.
  - unfold cpu_set. destruct cpu as [n|]; [|reflexivity]. now destruct (n =? 0).
  - f_equal. f_equal. unfold kvals_set. destruct kvals as [[|x l]|]; try reflexivity.
    now destruct (String.eqb (join "," (x :: l)) "").
Qed.

(** X5.  A [kvals] list whose joined text is empty (the empty list, or
    the list of one empty text) gives the command of [kvals=None], with
    no [-k] option at all; any other list gives its texts joined by
    commas after [-k]. *)
Theorem make_spades_cmd_kvals (genelist : string) (cov_cutoff : Z)
    (cpu : option Z) (paired : bool) (l : list string) :
  (join "," l = "" ->
   make_spades_cmd genelist cov_cutoff cpu paired (Some l) =
   make_spades_cmd genelist cov_cutoff cpu paired None) /\
  (join "," l <> "" ->
   contains (" --only-assembler -k " ++ join "," l ++ " --threads 1 ")
     (make_spades_cmd genelist cov_cutoff cpu paired (Some l)) = true).
Proof.
  split; intros H.
  - unfold make_spades_cmd, kvals_set. destruct l as [|x l]; [reflexivity|].
    rewrite H. reflexivity.
  - assert (Hset : kvals_set (Some l) = Some (join "," l)).
    { unfold kvals_set. destruct l as [|x l]; [now destruct H|].
      destruct (String.eqb_spec (join "," (x :: l)) ""); [contradiction | reflexivity]. }
    rewrite make_spades_cmd_parts, Hset.
    set (ks := join "," l).
    set (rest := "--cov-cutoff " ++ str_Z cov_cutoff ++ " " ++
                 (if paired then "--12" else "-s") ++
                 " {}/{}_interleaved.fasta -o {}/{}_spades :::: " ++ genelist ++
                 " > spades.log").
    set (head := "time parallel " ++
                 match cpu_set cpu with Some n => "-j " ++ str_Z n ++ " " | None => "" end ++
                 "--eta spades.py").
    assert (E : "time parallel " ++
                match cpu_set cpu with Some n => "-j " ++ str_Z n ++ " " | None => "" end ++
                "--eta spades.py --only-assembler" ++ (" -k " ++ ks) ++
                " --threads 1 --cov-cutoff " ++ str_Z cov_cutoff ++ " " ++
                (if paired then "--12" else "-s") ++
                " {}/{}_interleaved.fasta -o {}/{}_spades :::: " ++ genelist ++
                " > spades.log" =
                head ++ (" --only-assembler -k " ++ ks ++ " --threads 1 ") ++ rest).
    { subst head rest. destruct (cpu_set cpu) as [n|];
        rewrite ?append_assoc; reflexivity. }
    rewrite E. apply contains_mid.
Qed.

(** ** More on the initial pass *)



Section InitialPassMore.

Variable run : string -> gmap string node -> Z * gmap string node.

Lemma spades_initial_lists_raise (genelist : string) (cov_cutoff : Z)
    (cpu : option Z) (paired : bool) (kvals : option (list string)) (w : World) :
  (forall text, without_log (fs w) !! genelist <> Some (File text)) ->
  exists e,
    spades_initial_lists run genelist cov_cutoff cpu paired kvals w =
      Raise e (set_fs (without_log (fs w)) w) /\
    (e = FileNotFoundError genelist \/ e = IsADirectoryError genelist).
Proof.
  intros Hno. unfold spades_initial_lists.
  rewrite remove_stale_log, read_genes_step. cbn [fs set_fs].
  destruct (without_log (fs w) !! genelist) as [[text|names sz]|].
  - now destruct (Hno text).
  - eexists. split; [reflexivity | now right].
  - eexists. split; [reflexivity | now left].
Qed.

Lemma without_log_no_log (f : gmap string node) (text : string) :
  without_log f !! "spades.log" <> Some (File text).
Proof.
  unfold without_log, is_file.
  destruct (f !! "spades.log") as [[t|names sz]|] eqn:E.
  - now rewrite lookup_delete_eq.
  - rewrite E. discriminate.
  - rewrite E. discriminate.
Qed.

(** X6.  When the gene list is not a regular file once a stale
    [spades.log] is removed, [spades_initial] stops with the error of
    [open] before it writes or runs anything; [spades.log] is gone all
    the same.  This is always so when the gene list is [spades.log]
    itself. *)
Theorem spades_initial_unreadable (genelist : string) (cov_cutoff : Z)
    (cpu : option Z) (paired : bool) (kvals : option (list string)) (w : World) :
  ((forall text, without_log (fs w) !! genelist <> Some (File text)) ->
   exists e,
     spades_initial run genelist cov_cutoff cpu paired kvals w =
       Raise e (mkWorld (without_log (fs w)) (stderr w) (calls w) (copies w)) /\
     (e = FileNotFoundError genelist \/ e = IsADirectoryError genelist)) /\
  (exists e,
     spades_initial run "spades.log" cov_cutoff cpu paired kvals w =
       Raise e (mkWorld (without_log (fs w)) (stderr w) (calls w) (copies w))).
Proof.
  assert (H : forall g, (forall text, without_log (fs w) !! g <> Some (File text)) ->
            exists e,
              spades_initial run g cov_cutoff cpu paired kvals w =
                Raise e (mkWorld (without_log (fs w)) (stderr w) (calls w) (copies w)) /\
              (e = FileNotFoundError g \/ e = IsADirectoryError g)).
  { intros g Hno.
    destruct (spades_initial_lists_raise g cov_cutoff cpu paired kvals w Hno)
      as (e & He & Hkind).
    exists e. split; [|exact Hkind].
    unfold spades_initial, bind. now rewrite He. }
  split; [apply H|].
  destruct (H "spades.log") as (e & He & _); [apply without_log_no_log|].
  now exists e.
Qed.


(** X8.  The text of a stale [spades.log] has no part in what
    [spades_initial] does: it is removed before the gene list is read
    and before the command runs. *)
Theorem stale_log_ignored (genelist : string) (cov_cutoff : Z)
    (cpu : option Z) (paired : bool) (kvals : option (list string))
    (w : World) (text : string) :
  is_file (fs w) "spades.log" = true ->
  spades_initial run genelist cov_cutoff cpu paired kvals
    (set_fs (<["spades.log" := File text]> (fs w)) w) =
  spades_initial run genelist cov_cutoff cpu paired kvals w.
Proof.
  intros Hlog.
  assert (E : without_log (<["spades.log" := File text]> (fs w)) = without_log (fs w)).
  { unfold without_log. rewrite Hlog. unfold is_file. rewrite lookup_insert_eq.
    apply delete_insert_eq. }
  rewrite !spades_initial_of_lists. unfold spades_initial_lists.
  rewrite !remove_stale_log. cbn [fs set_fs]. rewrite E. reflexivity.
Qed.

End InitialPassMore.

(** ** More on the redo pass *)

Lemma size_at_copy_results (f : gmap string node) (genes : list string) :
  size_at (copy_results f genes) unformatted_path = size_at f unformatted_path.
Proof.
  unfold size_at. rewrite copy_results_other; [reflexivity|].
  intros g _ _ H. now apply (flat_path_not_unformatted g).
Qed.

Lemma filter_redo_ok_unsized (f : gmap string node) (genes : list string) :
  size_at f unformatted_path = None -> List.filter (redo_ok f) genes = [].
Proof.
  intros Hsz. induction genes as [|g genes IH]; [reflexivity|].
  cbn [List.filter]. unfold redo_ok at 1. rewrite Hsz, andb_false_r. exact IH.
Qed.

Lemma kmer_loop_copies (cov_cutoff : Z) (genes : list string) :
  forall (duds redos : list string) (w : World),
    copies (world_of (kmer_loop cov_cutoff genes duds redos w)) = copies w.
Proof.
  induction genes as [|g genes IH]; intros duds redos w; [reflexivity|].
  cbn [kmer_loop]. unfold bind at 1.
  change (path_join g (g ++ "_spades")) with (kmer_dir g).
  rewrite listdir_listing.
  destruct (listing (fs w) g) as [names|];
    [|now destruct (fs w !! kmer_dir g)].
  unfold bind at 1. rewrite kmers_of_parse.
  destruct (parse_kmers names) as [bad|ks]; [reflexivity|].
  destruct (length (merge_sort Z.le ks) <? 2)%nat.
  - rewrite write_stderr_step, IH. reflexivity.
  - destruct (last _); [|reflexivity].
    rewrite append_file_step, IH. reflexivity.
Qed.

Section RedoPassMore.

Variable run : string -> gmap string node -> Z * gmap string node.


(** What a redo pass that returns has done, in terms of the directory
    [after] that the redo command left. *)
Lemma rerun_spades_lists_end (genelist : string) (cov_cutoff : Z)
    (cpu : option Z) (paired : bool) (w w' : World)
    (spades_successful spades_failed spades_duds : list string) :
  rerun_spades_lists run genelist cov_cutoff cpu paired w =
    Ret (spades_successful, spades_failed, spades_duds) w' ->
  exists (text : string) (after : gmap string node),
    fs w !! genelist = Some (File text) /\
    let redos := List.filter (not_dud (fs w)) (gene_names text) in
    spades_successful = List.filter (redo_ok after) redos /\
    spades_failed = List.filter (redo_bad after) redos /\
    calls w' = (calls w ++ [redo_spades_cmd cpu])%list /\
    copies w' = (copies w ++ map (fun g => (contigs_path g, flat_path g))
                               spades_successful)%list /\
    size_at (fs w') unformatted_path = size_at after unformatted_path.
Proof.
  intros H. rewrite rerun_spades_lists_unfold in H.
  destruct (read_genes genelist w) as [genes w0|e w0] eqn:Hread; [|discriminate].
  destruct (read_genes_ret _ _ _ _ Hread) as [text [Htext ->]].
  pose proof (kmer_loop_copies cov_cutoff (gene_names text) [] [] (commands_opened w))
    as Hcopies.
  destruct (kmer_loop cov_cutoff (gene_names text) [] [] (commands_opened w))
    as [[duds redos] w1|e w1] eqn:Hk; [|discriminate].
  cbn [world_of] in Hcopies.
  change (copies (commands_opened w)) with (copies w) in Hcopies.
  apply (kmer_loop_returns cov_cutoff (fs w)) in Hk
    as (_ & Hredos & _ & _ & Hcalls & _ & _); [|apply commands_opened_agree].
  change (calls (commands_opened w)) with (calls w) in Hcalls.
  cbn [app] in Hredos. cbv zeta in H.
  set (after := snd (run (redo_spades_cmd cpu) (redo_start w1 duds))) in *.
  destruct (redo_loop redos [] [] _) as [[succ failed] w2|e w2] eqn:Hr;
    [|discriminate].
  injection H as -> -> -> ->.
  pose proof Hr as Hr'.
  apply redo_loop_returns in Hr' as (Hsucc & Hfailed & Hc2 & Hcp2).
  cbn [fs calls copies app] in Hsucc, Hfailed, Hc2, Hcp2.
  exists text, after. split; [exact Htext|]. cbv zeta. rewrite <- Hredos.
  split; [exact Hsucc|]. split; [exact Hfailed|].
  split; [now rewrite Hc2, Hcalls|]. split; [now rewrite Hcp2, Hcopies, Hsucc|].
  destruct (size_at after unformatted_path) as [sz|] eqn:Hsz.
  - rewrite (redo_loop_sized sz) in Hr by exact Hsz.
    injection Hr as _ _ <-. cbn [fs].
    destruct (0 <? sz); [rewrite size_at_copy_results|]; exact Hsz.
  - destruct (existsb (has_contigs after) redos) eqn:Hex.
    + apply existsb_exists in Hex.
      match type of Hr with
      | redo_loop _ _ _ ?w0 = _ =>
          destruct (redo_loop_lookup_error redos [] [] w0 Hsz Hex) as [w3 [H3 _]]
      end.
      congruence.
    + rewrite redo_loop_all_missing in Hr.
      * injection Hr as _ _ <-. exact Hsz.
      * intros g Hg. cbn [fs]. destruct (has_contigs after g) eqn:Hc; [|reflexivity].
        assert (existsb (has_contigs after) redos = true)
          by (apply existsb_exists; now exists g).
        congruence.
Qed.

(** X10.  Whenever [rerun_spades] returns, it has run the redo command
    exactly once, also when every gene was a dud or the list was empty
    and the command file has no line. *)
Theorem rerun_spades_one_command (genelist : string) (cov_cutoff : Z)
    (cpu : option Z) (paired : bool) (w w' : World)
    (spades_failed spades_duds : list string) :
  rerun_spades run genelist cov_cutoff cpu paired w =
    Ret (spades_failed, spades_duds) w' ->
  calls w' = (calls w ++ [redo_spades_cmd cpu])%list.
Proof.
  rewrite rerun_spades_of_lists.
  destruct (rerun_spades_lists run genelist cov_cutoff cpu paired w)
    as [[[succ failed] duds] w2|e w2] eqn:H; [|discriminate].
  cbn [fst snd]. intros E. injection E as -> -> ->.
  destruct (rerun_spades_lists_end _ _ _ _ _ _ _ _ _ H)
    as (text & after & _ & _ & _ & Hcalls & _). exact Hcalls.
Qed.

(** X11.  Unless something is at the path ["{}/{}_spades/contigs.fasta"]
    itself, a redo pass that returns has classified no gene as
    successful and has copied no result file: every gene that is not a
    dud is in the list of failures, whatever the assembler produced for
    it. *)
Theorem redo_needs_unformatted_path (genelist : string) (cov_cutoff : Z)
    (cpu : option Z) (paired : bool) (w w' : World)
    (spades_successful spades_failed spades_duds : list string) :
  rerun_spades_lists run genelist cov_cutoff cpu paired w =
    Ret (spades_successful, spades_failed, spades_duds) w' ->
  size_at (fs w') unformatted_path = None ->
  spades_successful = [] /\ copies w' = copies w /\
  forall gene, In gene (gene_names (text_at (fs w) genelist)) ->
               is_dud (fs w) gene = false -> In gene spades_failed.
Proof.
  intros H Hnone.
  destruct (rerun_spades_lists_end _ _ _ _ _ _ _ _ _ H)
    as (text & after & Htext & Hsucc & Hfailed & _ & Hcopies & Hsize).
  cbv zeta in Hsucc, Hfailed. rewrite Hnone in Hsize. symmetry in Hsize.
  rewrite (filter_redo_ok_unsized _ _ Hsize) in Hsucc. subst spades_successful.
  split; [reflexivity|]. split; [now rewrite Hcopies, app_nil_r|].
  intros gene Hin Hdud. unfold text_at in Hin. rewrite Htext in Hin.
  rewrite Hfailed. apply List.filter_In. split.
  - apply List.filter_In. split; [exact Hin|]. unfold not_dud. now rewrite Hdud.
  - unfold redo_bad, redo_ok. now rewrite Hsize, andb_false_r.
Qed.

End RedoPassMore.

(** ** The order of a directory listing *)





(** ** More on the top level *)

Section MainMore.

Variable run : string -> gmap string node -> Z * gmap string node.



(** X15.  Unless something is at the path ["{}/{}_spades/contigs.fasta"]
    itself when [main] ends, [main] can return after a redo pass (and
    report that all redos completed) only when every gene of the redo
    list was a dud: no gene that was in fact redone is ever reported
    successful. *)
Theorem success_report_means_duds (args : Args) (w w1 w' : World)
    (initial_failed : list string) :
  is_file (fs w) "failed_spades.txt" && redos_only args = false ->
  spades_initial run (genelist args) (cov_cutoff args) (Some (cpu args)) true
    (kvals args) w = Ret initial_failed w1 ->
  initial_failed <> [] ->
  main run args w = Ret tt w' ->
  size_at (fs w') unformatted_path = None ->
  let start := <["failed_spades.txt" := File (join nl initial_failed)]> (fs w1) in
  forall gene, In gene (gene_names (join nl initial_failed)) ->
               is_dud start gene = true.
Proof.
  intros Hcond Hinit Hne Hmain Hnone start gene Hin.
  assert (Hlen : (0 <? length initial_failed)%nat = true)
    by (destruct initial_failed; [congruence | reflexivity]).
  rewrite (main_normal run _ _ Hcond) in Hmain. unfold bind at 1 in Hmain.
  rewrite Hinit, Hlen in Hmain. unfold bind at 1 in Hmain.
  unfold write_file at 1 in Hmain. unfold bind at 1 in Hmain.
  fold start in Hmain. rewrite rerun_spades_of_lists in Hmain.
  destruct (rerun_spades_lists run "failed_spades.txt" (cov_cutoff args) None true
              (set_fs start w1)) as [[[succ failed] duds] w2|e w2] eqn:Hredo;
    [|discriminate].
  cbn [fst snd] in Hmain.
  destruct failed as [|f0 failed]; [|discriminate].
  cbn [length Nat.eqb] in Hmain. unfold write_stderr in Hmain.
  injection Hmain as <-. cbn [fs] in Hnone.
  destruct (rerun_spades_lists_end run _ _ _ _ _ _ _ _ _ Hredo)
    as (text & after & Htext & _ & Hfailed & _ & _ & Hsize).
  cbn [fs set_fs] in Htext, Hfailed. unfold start in Htext.
  rewrite lookup_insert_eq in Htext. injection Htext as <-.
  fold start in Hfailed. cbv zeta in Hfailed.
  rewrite Hnone in Hsize. symmetry in Hsize.
  destruct (is_dud start gene) eqn:Hdud; [reflexivity|].
  assert (Hbad : In gene (List.filter (redo_bad after)
                            (List.filter (not_dud start)
                               (gene_names (join nl initial_failed))))).
  { apply List.filter_In. split.
    - apply List.filter_In. split; [exact Hin|]. unfold not_dud. now rewrite Hdud.
    - unfold redo_bad, redo_ok. now rewrite Hsize, andb_false_r. }
  rewrite <- Hfailed in Hbad. destruct Hbad.
Qed.

End MainMore.

(** ** The further properties on the small directories *)



Lemma make_spades_cmd_kvals_witness :
  make_spades_cmd "genes.txt" 8 None true (Some [""]) =
  make_spades_cmd "genes.txt" 8 None true None /\
  contains " --only-assembler -k 21,33 --threads 1 "
    (make_spades_cmd "genes.txt" 8 None true (Some ["21"; "33"])) = true.
Proof.
  split.
  - destruct (make_spades_cmd_kvals "genes.txt" 8 None true [""]) as [Hnone _].
    apply Hnone. reflexivity.
  - destruct (make_spades_cmd_kvals "genes.txt" 8 None true ["21"; "33"]) as [_ Hsome].
    apply Hsome. vm_compute. discriminate.
Defined.

Lemma spades_initial_unreadable_witness :
  exists e,
    spades_initial demo_run "genes.txt" 8 None true None bare_world =
      Raise e bare_world /\
    (e = FileNotFoundError "genes.txt" \/ e = IsADirectoryError "genes.txt").
Proof.
  destruct (spades_initial_unreadable demo_run "genes.txt" 8 None true None bare_world)
    as [Hraise _].
  destruct Hraise as (e & He & Hkind).
  - intros text. vm_compute. discriminate.
  - exists e. split; [exact He | exact Hkind].
Defined.


Lemma stale_log_ignored_witness :
  spades_initial demo_run "genes.txt" 10 (Some 4) true None
    (set_fs (<["spades.log" := File "new"]>
               (fs (set_fs (<["spades.log" := File "old"]> (fs demo_world)) demo_world)))
            (set_fs (<["spades.log" := File "old"]> (fs demo_world)) demo_world)) =
  spades_initial demo_run "genes.txt" 10 (Some 4) true None
    (set_fs (<["spades.log" := File "old"]> (fs demo_world)) demo_world).
Proof.
  apply (stale_log_ignored demo_run "genes.txt" 10 (Some 4) true None
           (set_fs (<["spades.log" := File "old"]> (fs demo_world)) demo_world) "new").
  vm_compute; reflexivity.
Defined.


Lemma rerun_spades_one_command_witness :
  calls (world_of (rerun_spades demo_run "failed_spades.txt" 8 None true idle_world)) =
  ["parallel --eta :::: redo_spades_commands.txt > spades_redo.log"].
Proof.
  apply (rerun_spades_one_command demo_run "failed_spades.txt" 8 None true idle_world
           (world_of (rerun_spades demo_run "failed_spades.txt" 8 None true idle_world))
           [] []).
  vm_compute; reflexivity.
Defined.

Lemma redo_needs_unformatted_path_witness :
  In "g2" ["g2"] /\
  copies (world_of (rerun_spades_lists demo_run "failed_spades.txt" 8 None true
                      redo_world)) = [].
Proof.
  destruct (redo_needs_unformatted_path demo_run "failed_spades.txt" 8 None true
              redo_world
              (world_of (rerun_spades_lists demo_run "failed_spades.txt" 8 None true
                           redo_world))
              [] ["g2"] ["g3"]) as (_ & Hcopies & Hfailed).
  - vm_compute; reflexivity.
  - vm_compute; reflexivity.
  - split; [|exact Hcopies].
    apply Hfailed; [vm_compute; tauto | vm_compute; reflexivity].
Defined.




Lemma success_report_means_duds_witness :
  is_dud (<["failed_spades.txt" := File (join nl ["g3"])]>
            (fs (world_of (spades_initial demo_run "genes.txt" 10 (Some 4) true None
                             dud_world)))) "g3" = true.
Proof.
  apply (success_report_means_duds demo_run demo_args dud_world
           (world_of (spades_initial demo_run "genes.txt" 10 (Some 4) true None dud_world))
           (world_of (main demo_run demo_args dud_world)) ["g3"]).
  - vm_compute; reflexivity.
  - vm_compute; reflexivity.
  - discriminate.
  - vm_compute; reflexivity.
  - vm_compute; reflexivity.
  - vm_compute. tauto.
Defined.
